(** * BoxCars backend: vehicle and contact routes

    A shallow embedding of the Express route handlers of
    [src/routes/vehicles.js] (vehicles), [src/unnamed/part_000] (contact),
    the terminal error handler of [src/server.js] and the Vehicle schema of
    [src/unnamed/part_001].

    Conventions of the embedding.
    - A JavaScript string is a [string]; only ASCII text is modelled.
    - A JavaScript number is an IEEE 754 double ([Js.number]): what the
      handlers read from text and every sum, product and quotient they
      compute is rounded to the nearest double, ties to even.  The two
      zeroes are one value.  The numbers a stored document holds under
      year, price and mileage are finite and kept exact ([Z], [Q]).
    - [req.query] and [req.body] are maps from field names to strings
      ([gmap string string]): an absent key is [undefined].  Arrays and
      nested objects produced by the query-string and JSON parsers are
      outside the model.
    - The libraries the handlers call but whose code is not part of the
      repository (the JavaScript RegExp engine, Mongoose's casting and
      cursor ordering) are interfaces ([Class]) that state only the
      behaviour the handlers rely on.

    The file has five parts: the model of the code, the vocabulary in which
    the properties are stated, a reference platform that satisfies the
    interfaces, the properties, and the routes run on the reference
    platform. *)

From stdpp Require Import gmap strings list.
From Stdlib Require Import Ascii QArith Qround Qpower Qreduction Lqa.

Open Scope Z_scope.

(** ** JavaScript primitives *)

Module Js.

Definition code (c : ascii) : Z := Z.of_N (N_of_ascii c).

Definition isDigit (c : ascii) : bool := (48 <=? code c) && (code c <=? 57).

Definition digitValue (c : ascii) : Z := code c - 48.

(** StrWhiteSpaceChar restricted to ASCII: TAB, LF, VT, FF, CR, SP. *)
Definition isWhiteSpace (c : ascii) : bool :=
  ((9 <=? code c) && (code c <=? 13)) || (code c =? 32).

(** The value of [c] as a digit of the given radix (10 or 16), if it is one. *)
Definition radixDigit (radix : Z) (c : ascii) : option Z :=
  if isDigit c then Some (digitValue c)
  else if (radix =? 16) && (97 <=? code c) && (code c <=? 102) then Some (code c - 87)
  else if (radix =? 16) && (65 <=? code c) && (code c <=? 70) then Some (code c - 55)
  else None.

Fixpoint trimStart (s : string) : string :=
  match s with
  | String c s' => if isWhiteSpace c then trimStart s' else s
  | EmptyString => EmptyString
  end.

(** The digits of the longest prefix of [s] made of digits of [radix]. *)
Fixpoint takeDigits (radix : Z) (s : string) : list Z :=
  match s with
  | String c s' =>
      match radixDigit radix c with
      | Some d => d :: takeDigits radix s'
      | None => []
      end
  | EmptyString => []
  end.

Definition digitsValue (radix : Z) (ds : list Z) : Z :=
  fold_left (fun acc d => acc * radix + d) ds 0.

(** An optional leading sign: [(negative, rest)]. *)
Definition takeSign (s : string) : bool * string :=
  match s with
  | String c s' =>
      if Ascii.eqb c "-" then (true, s')
      else if Ascii.eqb c "+" then (false, s')
      else (false, s)
  | EmptyString => (false, s)
  end.

Definition signed (negative : bool) (n : Z) : Z := if negative then - n else n.

(** A JavaScript number: an IEEE 754 double.  [Finite q] is the double
    whose exact value is [q]; the two zeroes are one value, [Finite 0],
    which nothing the handlers compute tells apart. *)
Inductive number : Type :=
  | NaN
  | Finite (q : Q)
  | PosInfinity
  | NegInfinity.

(** [floor (log2 x)] for a positive rational in lowest terms. *)
Definition ilog2 (x : Q) : Z :=
  let k := Z.log2 (Qnum x) - Z.log2 (Z.pos (Qden x)) in
  if Qle_bool (2 ^ k) x then k else k - 1.

(** The integer nearest to [x], ties to the even one. *)
Definition roundHalfEven (x : Q) : Z :=
  let f := Qfloor x in
  match (x - inject_Z f ?= 1 # 2)%Q with
  | Lt => f
  | Gt => f + 1
  | Eq => if Z.even f then f else f + 1
  end.

(** The spacing of the doubles around a positive rational: 53 significant
    bits, and the spacing of the subnormals below 2^-1022. *)
Definition ulp (a : Q) : Q := (2 ^ (Z.max (ilog2 a) (-1022) - 52))%Q.

(** The multiple of the spacing nearest to a positive rational. *)
Definition nearest (a : Q) : Q := (inject_Z (roundHalfEven (a / ulp a)) * ulp a)%Q.

(** The Number value for [x]: the double nearest to it, ties to even, an
    infinity from 2^1024 on. *)
Definition numberFor (x : Q) : number :=
  let x := Qred x in
  match (x ?= 0)%Q with
  | Eq => Finite 0
  | Gt => let r := nearest x in
          if Qle_bool (2 ^ 1024) r then PosInfinity else Finite (Qred r)
  | Lt => let r := nearest (- x) in
          if Qle_bool (2 ^ 1024) r then NegInfinity else Finite (Qred (- r))
  end.

(** [a >= b] on numbers. *)
Definition number_ge (a b : number) : bool :=
  match a, b with
  | NaN, _ | _, NaN => false
  | PosInfinity, _ => true
  | _, NegInfinity => true
  | NegInfinity, _ => false
  | _, PosInfinity => false
  | Finite x, Finite y => Qle_bool y x
  end.

Definition number_le (a b : number) : bool := number_ge b a.

(** [a < b]. *)
Definition number_lt (a b : number) : bool :=
  match a, b with
  | NaN, _ | _, NaN => false
  | Finite x, Finite y => negb (Qle_bool y x)
  | _, _ => negb (number_ge a b)
  end.

(** [a < 0]. *)
Definition number_negative (a : number) : bool :=
  match a with
  | Finite x => negb (Qle_bool 0 x)
  | NegInfinity => true
  | _ => false
  end.

Definition infinity (negative : bool) : number :=
  if negative then NegInfinity else PosInfinity.

(** [- a]. *)
Definition neg (a : number) : number :=
  match a with
  | NaN => NaN
  | Finite x => Finite (- x)
  | PosInfinity => NegInfinity
  | NegInfinity => PosInfinity
  end.

(** [a + b]. *)
Definition add (a b : number) : number :=
  match a, b with
  | NaN, _ | _, NaN => NaN
  | Finite x, Finite y => numberFor (x + y)
  | PosInfinity, NegInfinity | NegInfinity, PosInfinity => NaN
  | PosInfinity, _ | _, PosInfinity => PosInfinity
  | NegInfinity, _ | _, NegInfinity => NegInfinity
  end.

(** [a - b]. *)
Definition sub (a b : number) : number := add a (neg b).

(** [a * b]. *)
Definition mul (a b : number) : number :=
  match a, b with
  | NaN, _ | _, NaN => NaN
  | Finite x, Finite y => numberFor (x * y)
  | Finite x, _ | _, Finite x =>
      if Qeq_bool x 0 then NaN
      else infinity (xorb (number_negative a) (number_negative b))
  | _, _ => infinity (xorb (number_negative a) (number_negative b))
  end.

(** [a / b].  A zero divisor is taken as +0; the handlers divide by
    [limit] only, which [|| 10] keeps from being zero. *)
Definition div (a b : number) : number :=
  match a, b with
  | NaN, _ | _, NaN => NaN
  | Finite x, Finite y =>
      if Qeq_bool y 0
      then (if Qeq_bool x 0 then NaN else infinity (number_negative a))
      else numberFor (x / y)
  | Finite _, _ => Finite 0
  | _, Finite _ => infinity (xorb (number_negative a) (number_negative b))
  | _, _ => NaN
  end.

(** [Math.ceil(a)]. *)
Definition Math_ceil (a : number) : number :=
  match a with
  | Finite x => Finite (inject_Z (Qceiling x))
  | _ => a
  end.

(** [n || d] for a number [n]: NaN and 0 are falsy. *)
Definition or_default (n d : number) : number :=
  match n with
  | NaN => d
  | Finite x => if Qeq_bool x 0 then d else n
  | _ => n
  end.

(** The number as the 64-bit integer a command of the store carries;
    [None] when it is not one. *)
Definition toInt64 (a : number) : option Z :=
  match a with
  | Finite x =>
      let n := Qfloor x in
      if Qeq_bool (inject_Z n) x && (- 2 ^ 63 <=? n) && (n <? 2 ^ 63) then Some n else None
  | _ => None
  end.

(** The mathematical integer [parseInt(s)] reads, with no radix argument;
    [None] when there is no digit to read. *)
Definition mathInt (s : string) : option Z :=
  let '(negative, str) := takeSign (trimStart s) in
  let '(R, str) :=
    match str with
    | String c0 (String c1 rest) =>
        if Ascii.eqb c0 "0" && (Ascii.eqb c1 "x" || Ascii.eqb c1 "X")
        then (16, rest) else (10, str)
    | _ => (10, str)
    end in
  match takeDigits R str with
  | [] => None
  | ds => Some (signed negative (digitsValue R ds))
  end.

(** [parseInt(s)]: the Number value for that integer, NaN when there is
    none. *)
Definition parseInt (s : string) : number :=
  match mathInt s with
  | Some n => numberFor (inject_Z n)
  | None => NaN
  end.

(** [parseInt(x)] where [x] may be [undefined]: ToString(undefined) has no
    digit prefix. *)
Definition parseInt_opt (x : option string) : number :=
  match x with
  | Some s => parseInt s
  | None => NaN
  end.

(** Truthiness of a possibly-undefined string: only [undefined] and the
    empty string are falsy. *)
Definition truthy (x : option string) : bool :=
  match x with
  | Some (String _ _) => true
  | _ => false
  end.

(** The digits of the longest decimal prefix, and what follows it. *)
Fixpoint spanDigits (s : string) : list Z * string :=
  match s with
  | String c s' =>
      if isDigit c
      then let '(ds, rest) := spanDigits s' in (digitValue c :: ds, rest)
      else ([], s)
  | EmptyString => ([], s)
  end.

Definition isExponentIndicator (c : ascii) : bool :=
  Ascii.eqb c "e" || Ascii.eqb c "E".

(** The ExponentPart at the head of [s], 0 when there is none (an [e] that
    no digit follows is not part of the literal). *)
Definition exponentPart (s : string) : Z :=
  match s with
  | String c r =>
      if isExponentIndicator c then
        let '(negative, r') := takeSign r in
        match fst (spanDigits r') with
        | [] => 0
        | ds => signed negative (digitsValue 10 ds)
        end
      else 0
  | EmptyString => 0
  end.

(** [parseFloat(s)]: the Number value for the longest prefix of the
    trimmed string that is a StrDecimalLiteral. *)
Definition parseFloat (s : string) : number :=
  let '(negative, str) := takeSign (trimStart s) in
  if String.prefix "Infinity" str then (if negative then NegInfinity else PosInfinity)
  else
    let '(ip, afterInt) := spanDigits str in
    let '(fp, afterFrac) :=
      match afterInt with
      | String c r => if Ascii.eqb c "." then spanDigits r else ([], afterInt)
      | EmptyString => ([], afterInt)
      end in
    match ip ++ fp with
    | [] => NaN
    | ds =>
        let mantissa := inject_Z (signed negative (digitsValue 10 ds)) in
        let e := exponentPart afterFrac - Z.of_nat (length fp) in
        numberFor (mantissa * Qpower (inject_Z 10) e)
    end.

(** [String.prototype.trim] on ASCII text. *)
Definition trim (s : string) : string :=
  String.rev (trimStart (String.rev (trimStart s))).

(** [s.replace(',', '.')]: the first comma only. *)
Fixpoint replaceComma (s : string) : string :=
  match s with
  | String c s' => if Ascii.eqb c "," then String "." s' else String c (replaceComma s')
  | EmptyString => EmptyString
  end.

End Js.

(** ** validator.js and express-validator *)

Module Validator.

(** The options [{ min, max }] of [isInt]. *)
Record IntOptions := { min : option Z; max : option Z }.

(** The regular expression [/^[-+]?[0-9]+$/] of [isInt] (leading zeroes
    are allowed by default). *)
Definition intLeadingZeroes (str : string) : bool :=
  match Js.spanDigits (snd (Js.takeSign str)) with
  | (_ :: _, EmptyString) => true
  | _ => false
  end.

(** The signed decimal value of a string that [intLeadingZeroes] accepts. *)
Definition numericValue (str : string) : Z :=
  let '(negative, digits) := Js.takeSign str in
  Js.signed negative (Js.digitsValue 10 (fst (Js.spanDigits digits))).

(** ToNumber on a string that [intLeadingZeroes] accepts: the Number
    value for its decimal value. *)
Definition ToNumber (str : string) : Js.number :=
  Js.numberFor (inject_Z (numericValue str)).

(** [isInt(str, options)]: [regex.test(str) && str >= min && str <= max].
    The comparisons coerce [str] with ToNumber; whenever the regular
    expression rejects [str] the conjunction is false whatever they give. *)
Definition isInt (o : IntOptions) (str : string) : bool :=
  intLeadingZeroes str
  && match min o with
     | Some m => Js.number_ge (ToNumber str) (Js.Finite (inject_Z m))
     | None => true
     end
  && match max o with
     | Some m => Js.number_le (ToNumber str) (Js.Finite (inject_Z m))
     | None => true
     end.

(** The regular expression of [isFloat] for the default locale: an
    optional sign, optional digits, an optional point followed by any
    number of digits, and an optional exponent (the letter e, an optional
    sign, at least one digit), anchored at both ends. *)
Definition float (str : string) : bool :=
  let afterInt := snd (Js.spanDigits (snd (Js.takeSign str))) in
  let afterFrac :=
    match afterInt with
    | String c r => if Ascii.eqb c "." then snd (Js.spanDigits r) else afterInt
    | EmptyString => afterInt
    end in
  match afterFrac with
  | EmptyString => true
  | String c r =>
      Js.isExponentIndicator c
      && match Js.spanDigits (snd (Js.takeSign r)) with
         | (_ :: _, EmptyString) => true
         | _ => false
         end
  end.

(** [isFloat(str, { min })]. *)
Definition isFloat (fmin : option Q) (str : string) : bool :=
  if existsb (String.eqb str) [""; "."; ","; "-"; "+"] then false
  else
    let value := Js.parseFloat (Js.replaceComma str) in
    float str
    && match fmin with Some m => Js.number_ge value (Js.Finite m) | None => true end.

Definition isIn (values : list string) (str : string) : bool :=
  existsb (String.eqb str) values.

(** [isLength(str, { min })] on ASCII text. *)
Definition isLength (lmin : nat) (str : string) : bool :=
  (lmin <=? String.length str)%nat.

Definition notEmpty (str : string) : bool :=
  negb (String.length str =? 0)%nat.

(** [matches(str, /^[\+]?[1-9][\d]{0,15}$/)], the phone pattern of the
    contact form. *)
Definition matchesPhone (str : string) : bool :=
  let digits :=
    match str with
    | String c r => if Ascii.eqb c "+" then r else str
    | EmptyString => str
    end in
  match digits with
  | String c r =>
      (49 <=? Js.code c) && (Js.code c <=? 57)
      && match Js.spanDigits r with
         | (ds, EmptyString) => (List.length ds <=? 15)%nat
         | _ => false
         end
  | EmptyString => false
  end.

(** One entry of [errors.array()]. *)
Record ValidationError := {
  location : string;
  param : string;
  msg : string;
  value : option string
}.

(** A step of a validation chain: a sanitizer rewrites the field, a
    validator with its [withMessage] text checks it. *)
Inductive Step : Type :=
  | Sanitize (f : string -> string)
  | Check (validator : string -> bool) (message : string).

(** [query(field)] or [body(field)] followed by its steps; [opt] is
    [.optional()], which skips the chain when the field is [undefined]. *)
Record Chain := {
  field : string;
  opt : bool;
  steps : list Step
}.

(** Validators and sanitizers see [undefined] as the empty string. *)
Definition toString (v : option string) : string := default EmptyString v.

Fixpoint runSteps (loc fld : string) (ss : list Step) (v : option string)
  : list ValidationError * option string :=
  match ss with
  | [] => ([], v)
  | Sanitize f :: ss' => runSteps loc fld ss' (Some (f (toString v)))
  | Check validator message :: ss' =>
      let '(es, v') := runSteps loc fld ss' v in
      ((if validator (toString v) then []
        else [{| location := loc; param := fld; msg := message; value := v |}]) ++ es,
       v')
  end.

(** Runs one chain on the request data: the errors it adds, and the data
    with the sanitized value written back when it changed. *)
Definition runChain (loc : string) (c : Chain) (data : gmap string string)
  : list ValidationError * gmap string string :=
  let v := data !! field c in
  match opt c, v with
  | true, None => ([], data)
  | _, _ =>
      let '(es, v') := runSteps loc (field c) (steps c) v in
      (es,
       match v' with
       | Some s => if decide (v = Some s) then data else <[field c := s]> data
       | None => data
       end)
  end.

(** The chains of a route run in order; [validationResult(req)] is the
    list of errors, and [req] holds the sanitized data. *)
Fixpoint runChains (loc : string) (cs : list Chain) (data : gmap string string)
  : list ValidationError * gmap string string :=
  match cs with
  | [] => ([], data)
  | c :: cs' =>
      let '(es, data') := runChain loc c data in
      let '(es', data'') := runChains loc cs' data' in
      (es ++ es', data'')
  end.

End Validator.

(** ** Regular expressions built from request text *)

Module RegExp.

(** SyntaxCharacter of the pattern grammar: [^ $ \ . * + ? ( ) [ ] { } |]. *)
Definition isSyntaxCharacter (c : ascii) : bool :=
  existsb (Ascii.eqb c)
    ["^"; "$"; "\"; "."; "*"; "+"; "?"; "("; ")"; "["; "]"; "{"; "}"; "|"]%char.

(** Canonicalize under the [i] flag, on ASCII: upper case. *)
Definition canonicalize (c : ascii) : ascii :=
  if (97 <=? Js.code c) && (Js.code c <=? 122)
  then ascii_of_N (N_of_ascii c - 32) else c.

Definition isLineTerminator (c : ascii) : bool :=
  (Js.code c =? 10) || (Js.code c =? 13).

(** The fragment of the pattern language that is given a meaning here:
    a sequence of ordinary characters and wildcards. *)
Inductive atom : Type :=
  | AChar (c : ascii)
  | AAny.

(** Reads a pattern of the fragment; [None] when the text uses any other
    syntax character. *)
Fixpoint simplePattern (p : string) : option (list atom) :=
  match p with
  | EmptyString => Some []
  | String c p' =>
      if Ascii.eqb c "." then cons AAny <$> simplePattern p'
      else if isSyntaxCharacter c then None
      else cons (AChar c) <$> simplePattern p'
  end.

Definition atomMatches (a : atom) (c : ascii) : bool :=
  match a with
  | AChar x => Ascii.eqb (canonicalize x) (canonicalize c)
  | AAny => negb (isLineTerminator c)
  end.

(** The atoms match a prefix of [s]. *)
Fixpoint matchesAt (atoms : list atom) (s : string) : bool :=
  match atoms, s with
  | [], _ => true
  | a :: atoms', String c s' => atomMatches a c && matchesAt atoms' s'
  | _ :: _, EmptyString => false
  end.

(** [regex.test(s)] for a pattern of the fragment: a match at some
    position of [s]. *)
Fixpoint search (atoms : list atom) (s : string) : bool :=
  matchesAt atoms s
  || match s with
     | String _ s' => search atoms s'
     | EmptyString => false
     end.

Definition wildcardFree (atoms : list atom) : bool :=
  forallb (fun a => match a with AChar _ => true | AAny => false end) atoms.

Fixpoint singleLine (s : string) : bool :=
  match s with
  | String c s' => negb (isLineTerminator c) && singleLine s'
  | EmptyString => true
  end.

End RegExp.

(** The regular-expression engine as the listing route uses it:
    [new RegExp(p, 'i')] either throws a SyntaxError or yields an expression
    that the store tests against a text field.  Its behaviour is fixed on
    the fragment of [RegExp.simplePattern] only; wildcards are pinned down
    on single-line subjects, where the JavaScript and the store's dialect
    agree. *)
Class RegExpEngine := {
  regexp_valid : string -> bool;
  regexp_test : string -> string -> bool;
  regexp_simple : forall p atoms,
    RegExp.simplePattern p = Some atoms ->
    regexp_valid p = true /\
    forall s, RegExp.wildcardFree atoms = true \/ RegExp.singleLine s = true ->
              regexp_test p s = RegExp.search atoms s
}.

(** ** Data model *)

Definition ObjectId := string.

(** The Vehicle schema ([src/unnamed/part_001]); enumerated paths hold
    strings, as the documents do.  The paths no handler reads and no
    validator checks (color, features, location, the timestamps other than
    createdAt) are left out. *)
Module Vehicle.

Record t := {
  make : string;
  model : string;
  year : Z;
  price : Q;
  originalPrice : option Q;
  mileage : Q;
  fuelType : string;
  transmission : string;
  bodyType : string;
  engine : string;
  image : string;
  condition : string;
  badge : option string;
  dealer : ObjectId;
  status : string;
  views : Js.number;
  isActive : bool;
  createdAt : Z
}.

Definition fuelType_enum : list string :=
  ["Petrol"; "Diesel"; "Hybrid"; "Electric"; "CNG"; "LPG"].
Definition transmission_enum : list string :=
  ["Manual"; "Automatic"; "CVT"; "Semi-Automatic"].
Definition bodyType_enum : list string :=
  ["SUV"; "Sedan"; "Hatchback"; "Coupe"; "Convertible"; "Truck"; "Van"; "Wagon"].
Definition condition_enum : list string :=
  ["New"; "Used"; "Certified Pre-Owned"].
Definition status_enum : list string :=
  ["available"; "sold"; "reserved"; "pending"].

Definition badge_enum : list string :=
  ["Great Price"; "Low Mileage"; "Sale"; "Featured"; "Hot Deal"].

(** [vehicle.views += 1]: a sum of doubles. *)
Definition incrementViews (v : t) : t :=
  {| make := make v; model := model v; year := year v; price := price v;
     originalPrice := originalPrice v;
     mileage := mileage v; fuelType := fuelType v; transmission := transmission v;
     bodyType := bodyType v; engine := engine v; image := image v;
     condition := condition v; badge := badge v; dealer := dealer v; status := status v;
     views := Js.add (views v) (Js.Finite 1); isActive := isActive v;
     createdAt := createdAt v |}.

(** The [required] validator of a String path: the text is not empty. *)
Definition required (s : string) : bool := negb (String.eqb s "").

(** The [enum] validator. *)
Definition enum (values : list string) (s : string) : bool :=
  existsb (String.eqb s) values.

(** [document.validate()] as [save()] runs it on a loaded document: every
    path is checked against the validators of the schema, the ones the
    handler did not touch included.  [maxYear] is what
    [new Date().getFullYear() + 1] gave when the schema was built.  A NaN
    assigned to a Number path fails to cast, which validation reports. *)
Definition validate (maxYear : Z) (v : t) : bool :=
  required (make v) && required (model v)
  && (1900 <=? year v) && (year v <=? maxYear)
  && Qle_bool 0 (price v)
  && match originalPrice v with Some p => Qle_bool 0 p | None => true end
  && Qle_bool 0 (mileage v)
  && enum fuelType_enum (fuelType v)
  && enum transmission_enum (transmission v)
  && enum bodyType_enum (bodyType v)
  && required (engine v) && required (image v)
  && enum condition_enum (condition v)
  && match badge v with Some b => enum badge_enum b | None => true end
  && enum status_enum (status v)
  && match views v with Js.NaN => false | _ => true end.

End Vehicle.

(** Modelled from the spec: the User model ([models/User.js] is not among
    the sources): an account with contact details and a role among user,
    dealer and admin. *)
Module User.

Record t := {
  name : string;
  email : string;
  phone : string;
  role : string
}.

End User.

(** Modelled from the spec: the Contact model ([models/Contact.js] is not
    among the sources): sender details, subject, message, the vehicle the
    inquiry is about, the dealer copied from it, a read flag and a status
    among new, in_progress, resolved and closed. *)
Module Contact.

Record t := {
  name : string;
  email : string;
  phone : option string;
  subject : string;
  message : string;
  vehicleId : ObjectId;
  dealerId : ObjectId;
  isRead : bool;
  status : string
}.

Definition status_enum : list string :=
  ["new"; "in_progress"; "resolved"; "closed"].

(** The update document [{ status, isRead: true }]; an [undefined] status
    leaves the path as it is. *)
Definition setStatus (s : option string) (c : t) : t :=
  {| name := name c; email := email c; phone := phone c; subject := subject c;
     message := message c; vehicleId := vehicleId c; dealerId := dealerId c;
     isRead := true; status := default (status c) s |}.

End Contact.

(** The three collections of the store. *)
Record Db := {
  Vehicles : gmap ObjectId Vehicle.t;
  Contacts : gmap ObjectId Contact.t;
  Users : gmap ObjectId User.t
}.

(** ** Query filters *)

(** What a filter object holds under one key. *)
Inductive Condition : Type :=
  | EqBool (b : bool)
  | EqString (s : string)
  | EqNumber (n : Js.number)
  | Matches (pattern : string)
  | Range (gte lte : option Js.number).

(** The value of a document path. *)
Inductive FieldValue : Type :=
  | VBool (b : bool)
  | VString (s : string)
  | VNumber (q : Q).

Definition path (key : string) (v : Vehicle.t) : option FieldValue :=
  if String.eqb key "make" then Some (VString (Vehicle.make v))
  else if String.eqb key "model" then Some (VString (Vehicle.model v))
  else if String.eqb key "year" then Some (VNumber (inject_Z (Vehicle.year v)))
  else if String.eqb key "price" then Some (VNumber (Vehicle.price v))
  else if String.eqb key "condition" then Some (VString (Vehicle.condition v))
  else if String.eqb key "fuelType" then Some (VString (Vehicle.fuelType v))
  else if String.eqb key "transmission" then Some (VString (Vehicle.transmission v))
  else if String.eqb key "bodyType" then Some (VString (Vehicle.bodyType v))
  else if String.eqb key "status" then Some (VString (Vehicle.status v))
  else if String.eqb key "isActive" then Some (VBool (Vehicle.isActive v))
  else None.

Section Matching.

Context `{RegExpEngine}.

(** A document value satisfies a condition.  A range with no bound is the
    empty sub-document, which no number equals. *)
Definition satisfies (c : Condition) (fv : FieldValue) : bool :=
  match c, fv with
  | EqBool b, VBool b' => Bool.eqb b b'
  | EqString s, VString s' => String.eqb s s'
  | EqNumber (Js.Finite n), VNumber q => Qeq_bool n q
  | Matches p, VString s => regexp_test p s
  | Range None None, VNumber _ => false
  | Range gte lte, VNumber q =>
      match gte with Some b => Js.number_ge (Js.Finite q) b | None => true end
      && match lte with Some b => Js.number_le (Js.Finite q) b | None => true end
  | _, _ => false
  end.

(** A filter is the conjunction of its conditions. *)
Definition matchesFilter (filter : gmap string Condition) (v : Vehicle.t) : bool :=
  forallb
    (fun kc => match path kc.1 v with
               | Some fv => satisfies kc.2 fv
               | None => false
               end)
    (map_to_list filter).

End Matching.

(** ** The store *)

(** What the handlers rely on from Mongoose and the database behind it:
    casting of identifiers, the order a sorted cursor yields (a
    rearrangement of the matching documents; ties are not specified),
    identifier generation, the casting and schema validation of
    documents built from request bodies, the year
    [new Date().getFullYear()] gave when the Vehicle schema was built, and
    which queries the server refuses: a regular expression outside its
    dialect, a sort key it does not admit.  A filter without a regular
    expression and the default sort are not refused. *)
Class Mongoose := {
  castObjectId : string -> option ObjectId;
  cursorSort : string * Z -> list (ObjectId * Vehicle.t) -> list (ObjectId * Vehicle.t);
  cursorSort_perm : forall sort docs, cursorSort sort docs ≡ₚ docs;
  newObjectId : Db -> ObjectId;
  castVehicle : gmap string string -> option Vehicle.t;
  castVehicle_dealer : forall data v d,
    castVehicle data = Some v -> data !! "dealer" = Some d ->
    castObjectId d = Some (Vehicle.dealer v);
  castVehicleUpdate : gmap string string -> Vehicle.t -> option Vehicle.t;
  castContact : gmap string string -> option Contact.t;
  schemaYear : Z;
  filterRefused : gmap string Condition -> bool;
  filterRefused_plain : forall filter,
    (forall key p, filter !! key <> Some (Matches p)) -> filterRefused filter = false;
  sortRefused : string * Z -> bool;
  sortRefused_default : sortRefused ("createdAt", -1) = false
}.

(** The calls a handler makes on a model. *)
Inductive StoreOp : Type :=
  | OpFind (filter : gmap string Condition)
  | OpCountDocuments (filter : gmap string Condition)
  | OpFindById (collection : string) (id : option string)
  | OpSave (id : ObjectId)
  | OpCreate (collection : string)
  | OpFindByIdAndUpdate (collection : string) (id : string)
  | OpFindByIdAndDelete (id : string).

Definition isWrite (op : StoreOp) : bool :=
  match op with
  | OpFind _ | OpCountDocuments _ | OpFindById _ _ => false
  | _ => true
  end.

(** The state a handler runs in: the database, and the model calls made so
    far, oldest first. *)
Record World := { db : Db; log : list StoreOp }.

Inductive Exception : Type :=
  | SyntaxError
  | TypeError
  | CastError
  | ValidationError
  | MongoServerError.

Inductive Outcome (A : Type) : Type :=
  | Returned (a : A)
  | Thrown (e : Exception).
Arguments Returned {A} a.
Arguments Thrown {A} e.

(** An [async] computation: it reads and writes the world, and either
    returns or throws. *)
Definition Async (A : Type) : Type := World -> Outcome A * World.

#[global] Instance Async_ret : MRet Async := fun A a w => (Returned a, w).

#[global] Instance Async_bind : MBind Async := fun A B k m w =>
  match m w with
  | (Returned a, w') => k a w'
  | (Thrown e, w') => (Thrown e, w')
  end.

Definition throw {A : Type} (e : Exception) : Async A := fun w => (Thrown e, w).

Definition record (op : StoreOp) : Async unit :=
  fun w => (Returned tt, {| db := db w; log := log w ++ [op] |}).

Definition getDb : Async Db := fun w => (Returned (db w), w).

Definition putDb (d : Db) : Async unit :=
  fun w => (Returned tt, {| db := d; log := log w |}).

(** [try { ... } catch (error) { ... }] around a handler body. *)
Definition tryCatch {A : Type} (body : Async A) (handler : Exception -> A) : World -> A * World :=
  fun w =>
    match body w with
    | (Returned a, w') => (a, w')
    | (Thrown e, w') => (handler e, w')
    end.

Definition setVehicles (vs : gmap ObjectId Vehicle.t) (d : Db) : Db :=
  {| Vehicles := vs; Contacts := Contacts d; Users := Users d |}.

Definition setContacts (cs : gmap ObjectId Contact.t) (d : Db) : Db :=
  {| Vehicles := Vehicles d; Contacts := cs; Users := Users d |}.

(** The dealer summary that [populate('dealer', 'name email phone')] puts
    in place of the reference; [None] when the user no longer exists. *)
Record DealerSummary := {
  dealer_id : ObjectId;
  dealer_name : string;
  dealer_email : string;
  dealer_phone : string
}.

(** A vehicle document as a response carries it. *)
Record VehicleDoc := {
  _id : ObjectId;
  doc : Vehicle.t;
  populatedDealer : option DealerSummary
}.

Definition populate (d : Db) (iv : ObjectId * Vehicle.t) : VehicleDoc :=
  {| _id := iv.1; doc := iv.2;
     populatedDealer :=
       (fun u => {| dealer_id := Vehicle.dealer iv.2; dealer_name := User.name u;
                    dealer_email := User.email u; dealer_phone := User.phone u |})
       <$> Users d !! Vehicle.dealer iv.2 |}.

(** [cursor.skip(n)]; the server refuses a negative [n] before this
    point. *)
Definition cursorSkip {A : Type} (n : Z) (docs : list A) : list A :=
  drop (Z.to_nat n) docs.

(** [cursor.limit(n)]: 0 is no limit, and a negative limit bounds the
    result like its absolute value. *)
Definition cursorLimit {A : Type} (n : Z) (docs : list A) : list A :=
  if n =? 0 then docs else take (Z.to_nat (Z.abs n)) docs.

(** Mongoose casts each condition to the type of its schema path before the
    query is sent.  Of the conditions the listing route builds, only a year
    that is NaN fails to cast. *)
Definition castFilterFails (filter : gmap string Condition) : bool :=
  match filter !! "year" with
  | Some (EqNumber Js.NaN) => true
  | _ => false
  end.

Section Store.

Context `{RegExpEngine} `{Mongoose}.

Definition matching (filter : gmap string Condition) (d : Db) : list (ObjectId * Vehicle.t) :=
  List.filter (fun iv => matchesFilter filter iv.2) (map_to_list (Vehicles d)).

(** The skip and the limit as the find command carries them: 64-bit
    integers, the skip not negative; the server refuses any other. *)
Definition window (skip limit : Js.number) : option (Z * Z) :=
  match Js.toInt64 skip, Js.toInt64 limit with
  | Some s, Some l => if s <? 0 then None else Some (s, l)
  | _, _ => None
  end.

(** [Vehicle.find(filter).populate('dealer', ...).sort(sort).skip(skip).limit(limit)] *)
Definition Vehicle_find (filter : gmap string Condition) (sort : string * Z)
    (skip limit : Js.number) : Async (list VehicleDoc) :=
  _ ← record (OpFind filter);
  if castFilterFails filter then throw CastError
  else if filterRefused filter || sortRefused sort then throw MongoServerError
  else
    match window skip limit with
    | None => throw MongoServerError
    | Some (s, l) =>
        d ← getDb;
        mret (populate d <$> cursorLimit l (cursorSkip s (cursorSort sort (matching filter d))))
    end.

(** [Vehicle.countDocuments(filter)] *)
Definition Vehicle_countDocuments (filter : gmap string Condition) : Async Js.number :=
  _ ← record (OpCountDocuments filter);
  if castFilterFails filter then throw CastError
  else if filterRefused filter then throw MongoServerError
  else
    d ← getDb;
    mret (Js.numberFor (inject_Z (Z.of_nat (List.length (matching filter d))))).

(** [Vehicle.findById(id)]: [undefined] is looked up as [{ _id: null }]
    and finds nothing; text that is no identifier fails to cast. *)
Definition Vehicle_findById (id : option string) : Async (option (ObjectId * Vehicle.t)) :=
  _ ← record (OpFindById "Vehicle" id);
  match id with
  | None => mret None
  | Some s =>
      match castObjectId s with
      | None => throw CastError
      | Some oid =>
          d ← getDb;
          mret (pair oid <$> Vehicles d !! oid)
      end
  end.

(** [vehicle.save()]: the document is validated against the schema, and
    written when it passes. *)
Definition Vehicle_save (oid : ObjectId) (v : Vehicle.t) : Async unit :=
  _ ← record (OpSave oid);
  if Vehicle.validate (schemaYear + 1) v
  then
    d ← getDb;
    putDb (setVehicles (<[oid := v]> (Vehicles d)) d)
  else throw ValidationError.

(** [Vehicle.create(data)]: schema casting and validation, then insertion
    under a new identifier. *)
Definition Vehicle_create (data : gmap string string) : Async (ObjectId * Vehicle.t) :=
  _ ← record (OpCreate "Vehicle");
  match castVehicle data with
  | None => throw ValidationError
  | Some v =>
      d ← getDb;
      let oid := newObjectId d in
      _ ← putDb (setVehicles (<[oid := v]> (Vehicles d)) d);
      mret (oid, v)
  end.

(** [Vehicle.findByIdAndUpdate(id, update, { new: true, runValidators: true })] *)
Definition Vehicle_findByIdAndUpdate (id : string) (update : gmap string string)
  : Async (option (ObjectId * Vehicle.t)) :=
  _ ← record (OpFindByIdAndUpdate "Vehicle" id);
  match castObjectId id with
  | None => throw CastError
  | Some oid =>
      d ← getDb;
      match Vehicles d !! oid with
      | None => mret None
      | Some v =>
          match castVehicleUpdate update v with
          | None => throw ValidationError
          | Some v' =>
              _ ← putDb (setVehicles (<[oid := v']> (Vehicles d)) d);
              mret (Some (oid, v'))
          end
      end
  end.

(** [Vehicle.findByIdAndDelete(id)] *)
Definition Vehicle_findByIdAndDelete (id : string) : Async unit :=
  _ ← record (OpFindByIdAndDelete id);
  match castObjectId id with
  | None => throw CastError
  | Some oid =>
      d ← getDb;
      putDb (setVehicles (delete oid (Vehicles d)) d)
  end.

(** [Contact.create(payload)] *)
Definition Contact_create (payload : gmap string string) : Async (ObjectId * Contact.t) :=
  _ ← record (OpCreate "Contact");
  match castContact payload with
  | None => throw ValidationError
  | Some c =>
      d ← getDb;
      let oid := newObjectId d in
      _ ← putDb (setContacts (<[oid := c]> (Contacts d)) d);
      mret (oid, c)
  end.

(** [Contact.findByIdAndUpdate(id, { status, isRead: true }, { new: true })] *)
Definition Contact_findByIdAndUpdate (id : string) (status : option string)
  : Async (option (ObjectId * Contact.t)) :=
  _ ← record (OpFindByIdAndUpdate "Contact" id);
  match castObjectId id with
  | None => throw CastError
  | Some oid =>
      d ← getDb;
      match Contacts d !! oid with
      | None => mret None
      | Some c =>
          let c' := Contact.setStatus status c in
          _ ← putDb (setContacts (<[oid := c']> (Contacts d)) d);
          mret (Some (oid, c'))
      end
  end.

End Store.

(** ** Requests and responses *)

(** Modelled from the spec: [req.user] as the [protect] middleware leaves it
    ([middleware/auth.js] is not among the sources): the caller's identity
    and role. *)
Module AuthUser.

Record t := { id : string; role : string }.

End AuthUser.

(** The two validator.js functions of the contact form that are taken as
    given: the e-mail check and the e-mail normalisation. *)
Class EmailValidator := {
  isEmail : string -> bool;
  normalizeEmail : string -> string
}.

Record Pagination := {
  currentPage : Js.number;
  totalPages : Js.number;
  totalVehicles : Js.number;
  hasNextPage : bool;
  hasPrevPage : bool
}.

(** The [data] member of a success envelope. *)
Inductive Data : Type :=
  | DataVehicle (vehicle : option VehicleDoc)
  | DataContact (contact : ObjectId * Contact.t).

(** The JSON bodies the routes send: the bare listing [{ vehicles,
    pagination }], the bare [{ vehicle }], the failure envelope
    [{ success: false, message, errors? }] and the success envelope
    [{ success: true, message, data? }]. *)
Inductive Body : Type :=
  | Listing (vehicles : list VehicleDoc) (pagination : Pagination)
  | Single (vehicle : VehicleDoc)
  | Failure (message : string) (errors : option (list Validator.ValidationError))
  | Success (message : string) (data : option Data).

Record Response := { statusCode : Z; body : Body }.

(** The [success] member of a body, when it has one. *)
Definition success (b : Body) : option bool :=
  match b with
  | Failure _ _ => Some false
  | Success _ _ => Some true
  | _ => None
  end.

(** [res.status(code).json(body)], and [res.json(body)] with the default
    status. *)
Definition status_json (code : Z) (b : Body) : Response :=
  {| statusCode := code; body := b |}.
Definition json (b : Body) : Response := status_json 200 b.

(** ** GET /api/vehicles *)

Import Validator.

Definition get_vehicles_chains : list Chain :=
  [ {| field := "page"; opt := true;
       steps := [Check (isInt {| min := Some 1; max := None |})
                       "Page must be a positive integer"] |};
    {| field := "limit"; opt := true;
       steps := [Check (isInt {| min := Some 1; max := Some 50 |})
                       "Limit must be between 1 and 50"] |};
    {| field := "minPrice"; opt := true;
       steps := [Check (isFloat (Some 0%Q)) "Min price must be positive"] |};
    {| field := "maxPrice"; opt := true;
       steps := [Check (isFloat (Some 0%Q)) "Max price must be positive"] |} ].

Section Routes.

Context `{RegExpEngine} `{Mongoose} `{EmailValidator}.

(** [new RegExp(p, 'i')] *)
Definition new_RegExp (p : string) : Async Condition :=
  if regexp_valid p then mret (Matches p) else throw SyntaxError.

(** [if (req.query.key) filter.key = make(req.query.key)] *)
Definition assignIfGiven (query : gmap string string) (key : string)
    (make : string -> Async Condition) (filter : gmap string Condition)
  : Async (gmap string Condition) :=
  if Js.truthy (query !! key)
  then c ← make (toString (query !! key)); mret (<[key := c]> filter)
  else mret filter.

(** The filter object of the listing route (lines 32 to 46). *)
Definition buildFilter (query : gmap string string) : Async (gmap string Condition) :=
  let filter : gmap string Condition :=
    <["status" := EqString "available"]> (<["isActive" := EqBool true]> ∅) in
  filter ← assignIfGiven query "make" new_RegExp filter;
  filter ← assignIfGiven query "model" new_RegExp filter;
  filter ← assignIfGiven query "year" (fun s => mret (EqNumber (Js.parseInt s))) filter;
  filter ← assignIfGiven query "condition" (fun s => mret (EqString s) : Async Condition) filter;
  filter ← assignIfGiven query "fuelType" (fun s => mret (EqString s) : Async Condition) filter;
  filter ← assignIfGiven query "transmission" (fun s => mret (EqString s) : Async Condition) filter;
  filter ← assignIfGiven query "bodyType" (fun s => mret (EqString s) : Async Condition) filter;
  if Js.truthy (query !! "minPrice") || Js.truthy (query !! "maxPrice")
  then
    let gte := if Js.truthy (query !! "minPrice")
               then Some (Js.parseFloat (toString (query !! "minPrice"))) else None in
    let lte := if Js.truthy (query !! "maxPrice")
               then Some (Js.parseFloat (toString (query !! "maxPrice"))) else None in
    mret (<["price" := Range gte lte]> filter)
  else mret filter.

(** The sort object (lines 49 to 54). *)
Definition buildSort (query : gmap string string) : string * Z :=
  if Js.truthy (query !! "sortBy")
  then (toString (query !! "sortBy"),
        if decide (query !! "sortOrder" = Some "desc") then -1 else 1)
  else ("createdAt", -1).

Definition get_vehicles (query : gmap string string) : World -> Response * World :=
  tryCatch
    (let '(errors, query) := runChains "query" get_vehicles_chains query in
     match errors with
     | _ :: _ => mret (status_json 400 (Failure "Validation failed" (Some errors)))
     | [] =>
         let page := Js.or_default (Js.parseInt_opt (query !! "page")) (Js.Finite 1) in
         let limit := Js.or_default (Js.parseInt_opt (query !! "limit")) (Js.Finite 10) in
         let skip := Js.mul (Js.sub page (Js.Finite 1)) limit in
         filter ← buildFilter query;
         let sort := buildSort query in
         vehicles ← Vehicle_find filter sort skip limit;
         total ← Vehicle_countDocuments filter;
         let totalPages := Js.Math_ceil (Js.div total limit) in
         mret (json (Listing vehicles
                       {| currentPage := page;
                          totalPages := totalPages;
                          totalVehicles := total;
                          hasNextPage := Js.number_lt page totalPages;
                          hasPrevPage := Js.number_lt (Js.Finite 1) page |}))
     end)
    (fun _ => status_json 500 (Failure "Server error" None)).

(** ** GET /api/vehicles/:id *)

Definition get_vehicle (id : string) : World -> Response * World :=
  tryCatch
    (vehicle ← Vehicle_findById (Some id);
     match vehicle with
     | None => mret (status_json 404 (Failure "Vehicle not found" None))
     | Some (oid, v) =>
         let v := Vehicle.incrementViews v in
         _ ← Vehicle_save oid v;
         d ← getDb;
         mret (json (Single (populate d (oid, v))))
     end)
    (fun _ => status_json 500 (Failure "Server error" None)).

(** ** POST /api/vehicles *)

Definition post_vehicles_chains (currentYear : Z) : list Chain :=
  [ {| field := "make"; opt := false;
       steps := [Sanitize Js.trim; Check notEmpty "Make is required"] |};
    {| field := "model"; opt := false;
       steps := [Sanitize Js.trim; Check notEmpty "Model is required"] |};
    {| field := "year"; opt := false;
       steps := [Check (isInt {| min := Some 1900; max := Some (currentYear + 1) |})
                       "Invalid year"] |};
    {| field := "price"; opt := false;
       steps := [Check (isFloat (Some 0%Q)) "Price must be positive"] |};
    {| field := "mileage"; opt := false;
       steps := [Check (isFloat (Some 0%Q)) "Mileage must be positive"] |};
    {| field := "image"; opt := false;
       steps := [Sanitize Js.trim; Check notEmpty "Image is required"] |};
    {| field := "fuelType"; opt := false;
       steps := [Check (isIn ["Petrol"; "Diesel"; "Hybrid"; "Electric"; "CNG"; "LPG"])
                       "Invalid fuel type"] |};
    {| field := "transmission"; opt := false;
       steps := [Check (isIn ["Manual"; "Automatic"; "CVT"; "Semi-Automatic"])
                       "Invalid transmission"] |};
    {| field := "bodyType"; opt := false;
       steps := [Check (isIn ["SUV"; "Sedan"; "Hatchback"; "Coupe"; "Convertible";
                              "Truck"; "Van"; "Wagon"])
                       "Invalid body type"] |};
    {| field := "condition"; opt := false;
       steps := [Check (isIn ["New"; "Used"; "Certified Pre-Owned"])
                       "Invalid condition"] |} ].

(** The handler that runs once [protect] and [authorize('dealer', 'admin')]
    have let the request through; [currentYear] is
    [new Date().getFullYear()]. *)
Definition post_vehicles (currentYear : Z) (user : AuthUser.t) (body : gmap string string)
  : World -> Response * World :=
  tryCatch
    (let '(errors, body) := runChains "body" (post_vehicles_chains currentYear) body in
     match errors with
     | _ :: _ => mret (status_json 400 (Failure "Validation failed" (Some errors)))
     | [] =>
         let vehicleData := <["dealer" := AuthUser.id user]> body in
         vehicle ← Vehicle_create vehicleData;
         d ← getDb;
         mret (status_json 201
                 (Success "Vehicle created successfully"
                    (Some (DataVehicle (Some (populate d vehicle))))))
     end)
    (fun _ => status_json 500 (Failure "Server error" None)).

(** [vehicle.dealer.toString() !== req.user.id && req.user.role !== 'admin'] *)
Definition notOwnerNorAdmin (v : Vehicle.t) (user : AuthUser.t) : bool :=
  negb (String.eqb (Vehicle.dealer v) (AuthUser.id user))
  && negb (String.eqb (AuthUser.role user) "admin").

(** ** PUT /api/vehicles/:id *)

Definition put_vehicle (user : AuthUser.t) (id : string) (body : gmap string string)
  : World -> Response * World :=
  tryCatch
    (vehicle ← Vehicle_findById (Some id);
     match vehicle with
     | None => mret (status_json 404 (Failure "Vehicle not found" None))
     | Some (_, v) =>
         if notOwnerNorAdmin v user
         then mret (status_json 403 (Failure "Not authorized to update this vehicle" None))
         else
           vehicle ← Vehicle_findByIdAndUpdate id body;
           d ← getDb;
           mret (json (Success "Vehicle updated successfully"
                         (Some (DataVehicle (populate d <$> vehicle)))))
     end)
    (fun _ => status_json 500 (Failure "Server error" None)).

(** ** DELETE /api/vehicles/:id *)

Definition delete_vehicle (user : AuthUser.t) (id : string) : World -> Response * World :=
  tryCatch
    (vehicle ← Vehicle_findById (Some id);
     match vehicle with
     | None => mret (status_json 404 (Failure "Vehicle not found" None))
     | Some (_, v) =>
         if notOwnerNorAdmin v user
         then mret (status_json 403 (Failure "Not authorized to delete this vehicle" None))
         else
           _ ← Vehicle_findByIdAndDelete id;
           mret (json (Success "Vehicle deleted successfully" None))
     end)
    (fun _ => status_json 500 (Failure "Server error" None)).

(** ** POST /api/contact *)

Definition post_contact_chains : list Chain :=
  [ {| field := "name"; opt := false;
       steps := [Sanitize Js.trim;
                 Check (isLength 2) "Name must be at least 2 characters"] |};
    {| field := "email"; opt := false;
       steps := [Check isEmail "Please enter a valid email"; Sanitize normalizeEmail] |};
    {| field := "subject"; opt := false;
       steps := [Sanitize Js.trim;
                 Check (isLength 5) "Subject must be at least 5 characters"] |};
    {| field := "message"; opt := false;
       steps := [Sanitize Js.trim;
                 Check (isLength 10) "Message must be at least 10 characters"] |};
    {| field := "phone"; opt := true;
       steps := [Check matchesPhone "Please enter a valid phone number"] |} ].

Definition post_contact (body : gmap string string) : World -> Response * World :=
  tryCatch
    (let '(errors, body) := runChains "body" post_contact_chains body in
     match errors with
     | _ :: _ => mret (status_json 400 (Failure "Validation failed" (Some errors)))
     | [] =>
         vehicle ← Vehicle_findById (body !! "vehicleId");
         payload ←
           match vehicle with
           | Some (_, v) => mret (<["dealerId" := Vehicle.dealer v]> body)
           | None => throw TypeError
           end;
         contact ← Contact_create payload;
         mret (status_json 201
                 (Success
                    "Your message has been sent successfully. We will get back to you soon."
                    (Some (DataContact contact))))
     end)
    (fun _ => status_json 500 (Failure "Server error. Please try again later." None)).

(** ** PUT /api/contact/:id/status *)

Definition put_contact_status_chains : list Chain :=
  [ {| field := "status"; opt := false;
       steps := [Check (isIn ["new"; "in_progress"; "resolved"; "closed"])
                       "Invalid status"] |} ].

(** The handler that runs once [protect] and [authorize('admin')] have let
    the request through. *)
Definition put_contact_status (id : string) (body : gmap string string)
  : World -> Response * World :=
  tryCatch
    (let '(errors, body) := runChains "body" put_contact_status_chains body in
     match errors with
     | _ :: _ => mret (status_json 400 (Failure "Validation failed" (Some errors)))
     | [] =>
         contact ← Contact_findByIdAndUpdate id (body !! "status");
         match contact with
         | None => mret (status_json 404 (Failure "Contact not found" None))
         | Some c => mret (json (Success "Contact status updated" (Some (DataContact c))))
         end
     end)
    (fun _ => status_json 500 (Failure "Server error" None)).

End Routes.

(** ** The terminal error handler of [src/server.js] *)

(** An error object as the handler reads it. *)
Record Error := {
  error_name : string;
  error_message : string;
  error_status : option Z;
  error_errors : list string
}.

(** The bodies of the terminal handler: [{ success: false, message }], with
    the list of messages for a schema validation error. *)
Definition errorHandler (err : Error) : Z * string * option (list string) :=
  if String.eqb (error_name err) "ValidationError"
  then (400, "Validation Error", Some (error_errors err))
  else if String.eqb (error_name err) "CastError"
  then (400, "Invalid ID format", None)
  else (match error_status err with Some s => if s =? 0 then 500 else s | None => 500 end,
        if String.eqb (error_message err) "" then "Internal Server Error" else error_message err,
        None).

(** The error a failed identifier cast raises. *)
Definition castError (message : string) : Error :=
  {| error_name := "CastError"; error_message := message;
     error_status := None; error_errors := [] |}.

(** * Vocabulary of the properties *)

(** The error a failed validator of the field records. *)
Definition fieldError (loc : string) (data : gmap string string) (fld message : string)
  : ValidationError :=
  {| location := loc; param := fld; msg := message; value := data !! fld |}.

(** What an optional single-validator chain contributes. *)
Definition optionalCheck (loc : string) (data : gmap string string) (fld : string)
    (validator : string -> bool) (message : string) : list ValidationError :=
  match data !! fld with
  | Some s => if validator s then [] else [fieldError loc data fld message]
  | None => []
  end.

(** What a required single-validator chain contributes. *)
Definition requiredCheck (loc : string) (data : gmap string string) (fld : string)
    (validator : string -> bool) (message : string) : list ValidationError :=
  if validator (toString (data !! fld)) then [] else [fieldError loc data fld message].

(** [page] and [limit] as the handler reads them (lines 27 and 28). *)
Definition pageOf (query : gmap string string) : Js.number :=
  Js.or_default (Js.parseInt_opt (query !! "page")) (Js.Finite 1).
Definition limitOf (query : gmap string string) : Js.number :=
  Js.or_default (Js.parseInt_opt (query !! "limit")) (Js.Finite 10).

(** The skip of the listing (line 29). *)
Definition skipOf (query : gmap string string) : Js.number :=
  Js.mul (Js.sub (pageOf query) (Js.Finite 1)) (limitOf query).

(** An integer as a number. *)
Definition integer (n : Z) : Js.number := Js.Finite (inject_Z n).

(** The least number of pages of [limit] records that hold [total]. *)
Definition ceilDiv (total limit : Z) : Z := Qceiling (inject_Z total / inject_Z limit).

(** The parameter is an integer literal (an optional sign and digits) that
    the handler reads as [n], or it is absent and [n] is the default. *)
Definition requested (query : gmap string string) (key : string) (n default : Z) : Prop :=
  match query !! key with
  | Some s => intLeadingZeroes s = true /\ Js.parseInt s = Js.Finite (inject_Z n)
  | None => n = default
  end.

(** The price bounds, when given, pass their check. *)
Definition pricesValidate (query : gmap string string) : Prop :=
  Forall (fun key => forall s, query !! key = Some s -> isFloat (Some 0%Q) s = true)
    ["minPrice"; "maxPrice"].

(** The errors of the listing chains. *)
Definition listingErrors (query : gmap string string) : list ValidationError :=
  (runChains "query" get_vehicles_chains query).1.

(** The vehicles of a listing response; none for any other body. *)
Definition listed (r : Response) : list VehicleDoc :=
  match body r with
  | Listing vehicles _ => vehicles
  | _ => []
  end.

(** The world after the given model calls, the database being as before. *)
Definition afterCalls (w : World) (ops : list StoreOp) : World :=
  {| db := db w; log := log w ++ ops |}.

(** The base of every listing filter. *)
Definition baseFilter : gmap string Condition :=
  <["status" := EqString "available"]> (<["isActive" := EqBool true]> ∅).

(** [if (req.query.key) filter.key = make(req.query.key)] as a value. *)
Definition assigned (query : gmap string string) (key : string)
    (make : string -> Condition) (filter : gmap string Condition)
  : gmap string Condition :=
  if Js.truthy (query !! key) then <[key := make (toString (query !! key))]> filter
  else filter.

(** The filter object the listing route ends with when no regular
    expression fails to compile. *)
Definition filterOf (query : gmap string string) : gmap string Condition :=
  let filter :=
    assigned query "bodyType" EqString
      (assigned query "transmission" EqString
         (assigned query "fuelType" EqString
            (assigned query "condition" EqString
               (assigned query "year" (fun s => EqNumber (Js.parseInt s))
                  (assigned query "model" Matches
                     (assigned query "make" Matches baseFilter)))))) in
  if Js.truthy (query !! "minPrice") || Js.truthy (query !! "maxPrice")
  then
    <["price" :=
        Range (if Js.truthy (query !! "minPrice")
               then Some (Js.parseFloat (toString (query !! "minPrice"))) else None)
              (if Js.truthy (query !! "maxPrice")
               then Some (Js.parseFloat (toString (query !! "maxPrice"))) else None)]>
      filter
  else filter.

(** The text, when given, is a regular expression that compiles. *)
Definition compiles `{RegExpEngine} (x : option string) : bool :=
  if Js.truthy x then regexp_valid (toString x) else true.

(** The year, when given, reads as a number. *)
Definition yearReads (query : gmap string string) : bool :=
  if Js.truthy (query !! "year")
  then match Js.parseInt (toString (query !! "year")) with Js.NaN => false | _ => true end
  else true.

(** The two conjuncts of the public listing. *)
Definition gated (filter : gmap string Condition) : Prop :=
  filter !! "isActive" = Some (EqBool true) /\
  filter !! "status" = Some (EqString "available").

(** A vehicle the public listing may show. *)
Definition eligible (v : Vehicle.t) : Prop :=
  Vehicle.isActive v = true /\ Vehicle.status v = "available".

(** A model call of the listing carries the two conjuncts. *)
Definition carriesGate (op : StoreOp) : Prop :=
  match op with
  | OpFind filter | OpCountDocuments filter => gated filter
  | _ => False
  end.








(** The filter lets the vehicle through at one key. *)
Definition conjunctHolds `{RegExpEngine} (filter : gmap string Condition) (key : string)
    (v : Vehicle.t) : bool :=
  match filter !! key with
  | Some c => match path key v with
              | Some fv => satisfies c fv
              | None => false
              end
  | None => true
  end.

Section Vocabulary.

Context `{RegExpEngine} `{Mongoose}.

(** The page of documents the cursor yields. *)
Definition pageOfDocs (filter : gmap string Condition) (sort : string * Z)
    (skip limit : Z) (d : Db) : list VehicleDoc :=
  populate d <$> cursorLimit limit (cursorSkip skip (cursorSort sort (matching filter d))).

(** The world after [vehicle.save()] of the fetched document. *)
Definition afterView (w : World) (id : string) (oid : ObjectId) (v : Vehicle.t) : World :=
  {| db := setVehicles (<[oid := Vehicle.incrementViews v]> (Vehicles (db w))) (db w);
     log := log w ++ [OpFindById "Vehicle" (Some id); OpSave oid] |}.

(** The window of a query that Mongoose casts and the server accepts;
    [None] for any other. *)
Definition accepted (filter : gmap string Condition) (sort : string * Z)
    (skip limit : Js.number) : option (Z * Z) :=
  if castFilterFails filter || filterRefused filter || sortRefused sort then None
  else window skip limit.

(** The vehicle identifier of a contact form resolves to a stored vehicle. *)
Definition resolves (x : option string) (d : Db) : Prop :=
  exists s oid v, x = Some s /\ castObjectId s = Some oid /\ Vehicles d !! oid = Some v.

End Vocabulary.

(** * A reference platform

    One engine, one store and one e-mail check that satisfy the interfaces,
    used to run the routes on concrete requests. *)

Module Reference.

(** The engine that knows the fragment only: any other pattern is refused
    as if it did not compile. *)
Definition valid (p : string) : bool :=
  match RegExp.simplePattern p with Some _ => true | None => false end.

Definition test (p s : string) : bool :=
  match RegExp.simplePattern p with
  | Some atoms => RegExp.search atoms s
  | None => false
  end.

Lemma simple p atoms :
  RegExp.simplePattern p = Some atoms ->
  valid p = true /\
  forall s, RegExp.wildcardFree atoms = true \/ RegExp.singleLine s = true ->
            test p s = RegExp.search atoms s.
Proof. unfold valid, test. intros ->. done. Qed.

Definition engine : RegExpEngine :=
  {| regexp_valid := valid; regexp_test := test; regexp_simple := simple |}.

Definition isLowerHex (c : ascii) : bool :=
  Js.isDigit c || ((97 <=? Js.code c) && (Js.code c <=? 102)).

Fixpoint allLowerHex (s : string) : bool :=
  match s with
  | String c s' => isLowerHex c && allLowerHex s'
  | EmptyString => true
  end.

(** Identifiers are 24 lower-case hexadecimal digits. *)
Definition cast (s : string) : option ObjectId :=
  if (String.length s =? 24)%nat && allLowerHex s then Some s else None.

Definition hexDigit (n : N) : ascii :=
  if (n <? 10)%N then ascii_of_N (48 + n) else ascii_of_N (87 + n).

Fixpoint hex (width : nat) (n : N) : string :=
  match width with
  | O => EmptyString
  | S k => hex k (n / 16) +:+ String (hexDigit (n mod 16)) EmptyString
  end.

Definition newId (d : Db) : ObjectId :=
  hex 24 (N.of_nat (size (Vehicles d) + size (Contacts d) + 1)).

(** The number a document is ordered by; paths that hold no number count
    as equal. *)
Definition sortKey (path : string) (v : Vehicle.t) : Q :=
  if String.eqb path "createdAt" then inject_Z (Vehicle.createdAt v)
  else if String.eqb path "price" then Vehicle.price v
  else if String.eqb path "year" then inject_Z (Vehicle.year v)
  else if String.eqb path "views"
       then match Vehicle.views v with Js.Finite q => q | _ => 0%Q end
  else if String.eqb path "mileage" then Vehicle.mileage v
  else 0%Q.

Definition before (sort : string * Z) (a b : ObjectId * Vehicle.t) : bool :=
  if sort.2 <? 0
  then Qle_bool (sortKey sort.1 b.2) (sortKey sort.1 a.2)
  else Qle_bool (sortKey sort.1 a.2) (sortKey sort.1 b.2).

Fixpoint insertSorted (sort : string * Z) (x : ObjectId * Vehicle.t)
    (docs : list (ObjectId * Vehicle.t)) : list (ObjectId * Vehicle.t) :=
  match docs with
  | [] => [x]
  | y :: docs' =>
      if before sort x y then x :: y :: docs' else y :: insertSorted sort x docs'
  end.

(** A stable insertion sort on the sort key. *)
Definition sorted (sort : string * Z) (docs : list (ObjectId * Vehicle.t))
  : list (ObjectId * Vehicle.t) :=
  foldr (insertSorted sort) [] docs.

Lemma insertSorted_perm sort x docs : insertSorted sort x docs ≡ₚ x :: docs.
Proof.
  induction docs as [|y docs IH]; simpl; [done|].
  destruct (before sort x y); [done|]. rewrite IH. apply Permutation_swap.
Qed.

Lemma sorted_perm sort docs : sorted sort docs ≡ₚ docs.
Proof.
  induction docs as [|x docs IH]; simpl; [done|].
  rewrite insertSorted_perm. by rewrite IH.
Qed.

(** The year the schema of the reference platform was built in. *)
Definition year2025 : Z := 2025.

(** A non-negative number read from text. *)
Definition nonNegative (s : string) : option Q :=
  match Js.parseFloat s with
  | Js.Finite q => if Qle_bool 0 q then Some q else None
  | _ => None
  end.

Definition oneOf (values : list string) (s : string) : option string :=
  if Validator.isIn values s then Some s else None.

(** A new Vehicle document from request data: required paths, enumerated
    values, bounds and defaults of the schema. *)
Definition newVehicle (data : gmap string string) : option Vehicle.t :=
  d ← data !! "dealer";
  dealer ← cast d;
  make ← data !! "make";
  model ← data !! "model";
  year ← data !! "year" ≫= Js.mathInt;
  price ← data !! "price" ≫= nonNegative;
  mileage ← data !! "mileage" ≫= nonNegative;
  fuelType ← data !! "fuelType" ≫= oneOf Vehicle.fuelType_enum;
  transmission ← data !! "transmission" ≫= oneOf Vehicle.transmission_enum;
  bodyType ← data !! "bodyType" ≫= oneOf Vehicle.bodyType_enum;
  engine ← data !! "engine";
  image ← data !! "image";
  condition ← data !! "condition" ≫= oneOf Vehicle.condition_enum;
  status ← oneOf Vehicle.status_enum (default "available" (data !! "status"));
  if (1900 <=? year) && (year <=? year2025 + 1) then
    Some {| Vehicle.make := make; Vehicle.model := model; Vehicle.year := year;
            Vehicle.price := price; Vehicle.originalPrice := None;
            Vehicle.mileage := mileage;
            Vehicle.fuelType := fuelType; Vehicle.transmission := transmission;
            Vehicle.bodyType := bodyType; Vehicle.engine := engine;
            Vehicle.image := image; Vehicle.condition := condition;
            Vehicle.badge := None;
            Vehicle.dealer := dealer; Vehicle.status := status;
            Vehicle.views := Js.Finite 0; Vehicle.isActive := true;
            Vehicle.createdAt := 0 |}
  else None.

Lemma newVehicle_dealer data v d :
  newVehicle data = Some v -> data !! "dealer" = Some d ->
  cast d = Some (Vehicle.dealer v).
Proof.
  unfold newVehicle. intros Hv Hd. rewrite Hd in Hv. simpl in Hv.
  destruct (cast d) as [dealer|]; [|done]. simpl in Hv.
  repeat match type of Hv with
         | (_ ≫= _) = Some _ =>
             apply bind_Some in Hv as (? & _ & Hv)
         end.
  destruct (_ && _); [|done]. by inversion Hv.
Qed.

(** An update of the status and the price, validated like a new document;
    other paths of the update document are not modelled. *)
Definition updatedVehicle (update : gmap string string) (v : Vehicle.t) : option Vehicle.t :=
  status ← match update !! "status" with
           | Some s => oneOf Vehicle.status_enum s
           | None => Some (Vehicle.status v)
           end;
  price ← match update !! "price" with
          | Some s => nonNegative s
          | None => Some (Vehicle.price v)
          end;
  Some {| Vehicle.make := Vehicle.make v; Vehicle.model := Vehicle.model v;
          Vehicle.year := Vehicle.year v; Vehicle.price := price;
          Vehicle.originalPrice := Vehicle.originalPrice v;
          Vehicle.mileage := Vehicle.mileage v; Vehicle.fuelType := Vehicle.fuelType v;
          Vehicle.transmission := Vehicle.transmission v;
          Vehicle.bodyType := Vehicle.bodyType v; Vehicle.engine := Vehicle.engine v;
          Vehicle.image := Vehicle.image v; Vehicle.condition := Vehicle.condition v;
          Vehicle.badge := Vehicle.badge v;
          Vehicle.dealer := Vehicle.dealer v; Vehicle.status := status;
          Vehicle.views := Vehicle.views v; Vehicle.isActive := Vehicle.isActive v;
          Vehicle.createdAt := Vehicle.createdAt v |}.

(** A new Contact document from the payload of the contact form. *)
Definition newContact (payload : gmap string string) : option Contact.t :=
  name ← payload !! "name";
  email ← payload !! "email";
  subject ← payload !! "subject";
  message ← payload !! "message";
  vehicleId ← payload !! "vehicleId" ≫= cast;
  dealerId ← payload !! "dealerId" ≫= cast;
  Some {| Contact.name := name; Contact.email := email;
          Contact.phone := payload !! "phone"; Contact.subject := subject;
          Contact.message := message; Contact.vehicleId := vehicleId;
          Contact.dealerId := dealerId; Contact.isRead := false;
          Contact.status := "new" |}.

Definition mongoose : Mongoose :=
  {| castObjectId := cast;
     cursorSort := sorted;
     cursorSort_perm := sorted_perm;
     newObjectId := newId;
     castVehicle := newVehicle;
     castVehicle_dealer := newVehicle_dealer;
     castVehicleUpdate := updatedVehicle;
     castContact := newContact;
     schemaYear := year2025;
     filterRefused := fun _ => false;
     filterRefused_plain := fun _ _ => eq_refl;
     sortRefused := fun _ => false;
     sortRefused_default := eq_refl |}.

Fixpoint hasAt (s : string) : bool :=
  match s with
  | String c s' => Ascii.eqb c "@" || hasAt s'
  | EmptyString => false
  end.

Fixpoint lowerCase (s : string) : string :=
  match s with
  | String c s' =>
      String (if (65 <=? Js.code c) && (Js.code c <=? 90)
              then ascii_of_N (N_of_ascii c + 32) else c) (lowerCase s')
  | EmptyString => EmptyString
  end.

(** A stand-in for the e-mail check: the text holds an at sign. *)
Definition email : EmailValidator :=
  {| isEmail := hasAt; normalizeEmail := lowerCase |}.

(** Sample data: a dealer, another dealer, and three vehicles of which the
    third is sold. *)
Definition alice : ObjectId := "aaaaaaaaaaaaaaaaaaaaaaaa".
Definition bob : ObjectId := "bbbbbbbbbbbbbbbbbbbbbbbb".

Definition car (make model : string) (year : Z) (price : Q) (status : string)
    (created : Z) : Vehicle.t :=
  {| Vehicle.make := make; Vehicle.model := model; Vehicle.year := year;
     Vehicle.price := price; Vehicle.originalPrice := None; Vehicle.mileage := 1000;
     Vehicle.fuelType := "Petrol";
     Vehicle.transmission := "Manual"; Vehicle.bodyType := "Sedan";
     Vehicle.engine := "1.8L"; Vehicle.image := "car.png"; Vehicle.condition := "Used";
     Vehicle.badge := None;
     Vehicle.dealer := alice; Vehicle.status := status; Vehicle.views := Js.Finite 7;
     Vehicle.isActive := true; Vehicle.createdAt := created |}.

Definition corolla : ObjectId := "000000000000000000000001".
Definition civic : ObjectId := "000000000000000000000002".
Definition camry : ObjectId := "000000000000000000000003".
Definition inquiry : ObjectId := "00000000000000000000000c".

Definition sampleDb : Db :=
  {| Vehicles :=
       <[corolla := car "Toyota" "Corolla" 2019 15000 "available" 10]>
       (<[civic := car "Honda" "Civic" 2020 18000 "available" 20]>
       (<[camry := car "Toyota" "Camry" 2018 14000 "sold" 30]> ∅));
     Contacts :=
       {[ inquiry :=
            {| Contact.name := "Carol"; Contact.email := "carol@example.com";
               Contact.phone := None; Contact.subject := "Price";
               Contact.message := "Is the price negotiable?";
               Contact.vehicleId := corolla; Contact.dealerId := alice;
               Contact.isRead := false; Contact.status := "closed" |} ]};
     Users :=
       {[ alice := {| User.name := "Alice"; User.email := "alice@example.com";
                      User.phone := "15550100"; User.role := "dealer" |} ]} |}.

Definition world : World := {| db := sampleDb; log := [] |}.

End Reference.

Module Sample.

(** Requests against the sample data. *)
Definition override : gmap string string :=
  {["isActive" := "false"; "status" := "sold"; "make" := "toyo"]}.
Definition pageTwo : gmap string string := {["page" := "2"; "limit" := "1"]}.
Definition notAYear : gmap string string := {["year" := "abc"]}.
Definition hugePage : gmap string string := {["page" := "9007199254740993"]}.

Definition carol : AuthUser.t := {| AuthUser.id := Reference.bob; AuthUser.role := "user" |}.
Definition bobDealer : AuthUser.t :=
  {| AuthUser.id := Reference.bob; AuthUser.role := "dealer" |}.

Definition unknownVehicle : ObjectId := "00000000000000000000000f".

(** A store with a vehicle older than the schema allows, and one whose
    counter has reached 2^53. *)
Definition veteran : ObjectId := "000000000000000000000004".
Definition popular : ObjectId := "000000000000000000000005".

Definition viewed (views : Z) (v : Vehicle.t) : Vehicle.t :=
  {| Vehicle.make := Vehicle.make v; Vehicle.model := Vehicle.model v;
     Vehicle.year := Vehicle.year v; Vehicle.price := Vehicle.price v;
     Vehicle.originalPrice := Vehicle.originalPrice v;
     Vehicle.mileage := Vehicle.mileage v; Vehicle.fuelType := Vehicle.fuelType v;
     Vehicle.transmission := Vehicle.transmission v;
     Vehicle.bodyType := Vehicle.bodyType v; Vehicle.engine := Vehicle.engine v;
     Vehicle.image := Vehicle.image v; Vehicle.condition := Vehicle.condition v;
     Vehicle.badge := Vehicle.badge v; Vehicle.dealer := Vehicle.dealer v;
     Vehicle.status := Vehicle.status v; Vehicle.views := integer views;
     Vehicle.isActive := Vehicle.isActive v; Vehicle.createdAt := Vehicle.createdAt v |}.

Definition museum : World :=
  {| db :=
       {| Vehicles :=
            <[veteran := Reference.car "Benz" "Velo" 1899 90000 "available" 40]>
            (<[popular := viewed (2 ^ 53)
                            (Reference.car "Ford" "Model T" 1925 20000 "available" 50)]> ∅);
          Contacts := ∅;
          Users := ∅ |};
     log := [] |}.

Definition contactForm : gmap string string :=
  {["name" := "Dan"; "email" := "dan@example.com"; "subject" := "Hello there";
    "message" := "I would like to know more."; "vehicleId" := unknownVehicle]}.

(** A create request whose body names another dealer. *)
Definition vehicleForm : gmap string string :=
  {["make" := " Kia "; "model" := "Rio"; "year" := "2021"; "price" := "9000";
    "mileage" := "10"; "image" := "x.png"; "fuelType" := "Petrol";
    "transmission" := "Manual"; "bodyType" := "Sedan"; "condition" := "New";
    "engine" := "1.2"; "dealer" := Reference.alice]}.

End Sample.

(** * Properties *)

(** ** The validation chains *)

Lemma runChain_optional_check loc fld validator message data :
  runChain loc {| field := fld; opt := true; steps := [Check validator message] |} data
  = (optionalCheck loc data fld validator message, data).
Proof.
  unfold runChain, optionalCheck, fieldError; simpl.
  destruct (data !! fld) as [s|] eqn:E; simpl; [|done].
  rewrite decide_True by done. by rewrite app_nil_r.
Qed.

Lemma runChain_required_check loc fld validator message data :
  runChain loc {| field := fld; opt := false; steps := [Check validator message] |} data
  = (requiredCheck loc data fld validator message, data).
Proof.
  unfold runChain, requiredCheck, fieldError; simpl.
  rewrite app_nil_r.
  destruct (data !! fld) as [s|] eqn:E; simpl; [|done].
  by rewrite decide_True by done.
Qed.

(** The listing chains sanitize nothing: the query is left as it came, and
    the errors are those of the four fields, in order. *)
Lemma get_vehicles_validation query :
  runChains "query" get_vehicles_chains query
  = (optionalCheck "query" query "page" (isInt {| min := Some 1; max := None |})
       "Page must be a positive integer"
     ++ optionalCheck "query" query "limit" (isInt {| min := Some 1; max := Some 50 |})
          "Limit must be between 1 and 50"
     ++ optionalCheck "query" query "minPrice" (isFloat (Some 0%Q))
          "Min price must be positive"
     ++ optionalCheck "query" query "maxPrice" (isFloat (Some 0%Q))
          "Max price must be positive",
     query).
Proof.
  unfold get_vehicles_chains, runChains.
  rewrite !runChain_optional_check. by rewrite app_nil_r.
Qed.

(** ** Rounding to doubles *)

Section Rounding.

Local Open Scope Q_scope.

Lemma pow2_pos (e : Z) : 0 < 2 ^ e.
Proof. by apply Qpower_0_lt. Qed.

Lemma pow2_succ (e : Z) : 2 ^ (e + 1) == 2 * 2 ^ e.
Proof. rewrite Qpower_plus by done. rewrite Qpower_1_r. ring. Qed.

Lemma pow2_inject (e : Z) : (0 <= e)%Z -> 2 ^ e == inject_Z (2 ^ e).
Proof. intros He. by rewrite (Zpower_Qpower 2 e He). Qed.

Lemma pow2_le (i j : Z) : (i <= j)%Z -> 2 ^ i <= 2 ^ j.
Proof. intros Hij. apply Qpower_le_compat_l; [done|]. by compute. Qed.

Lemma pow2_lt_inv (i j : Z) : 2 ^ i < 2 ^ j -> (i < j)%Z.
Proof.
  intros Hlt. destruct (Z.lt_ge_cases i j) as [|Hge]; [done|].
  apply pow2_le in Hge. lra.
Qed.

Lemma log2_bounds (n : Z) :
  (0 < n)%Z -> 2 ^ Z.log2 n <= inject_Z n /\ inject_Z n < 2 * 2 ^ Z.log2 n.
Proof.
  intros Hn. destruct (Z.log2_spec n Hn) as [Hlo Hhi].
  pose proof (Z.log2_nonneg n) as Hk.
  rewrite (pow2_inject _ Hk). split.
  - by rewrite Zle_Qle in Hlo.
  - rewrite Z.pow_succ_r in Hhi by done. rewrite Zlt_Qlt, inject_Z_mult in Hhi. done.
Qed.

Lemma ilog2_spec (x : Q) : 0 < x -> 2 ^ Js.ilog2 x <= x /\ x < 2 ^ (Js.ilog2 x + 1).
Proof.
  intros Hx. unfold Js.ilog2.
  set (n := Qnum x). set (d := Z.pos (Qden x)).
  assert (Hn : (0 < n)%Z).
  { unfold n. destruct x as [xn xd]. unfold Qlt in Hx. simpl in *. lia. }
  assert (Hd : (0 < d)%Z) by done.
  destruct (log2_bounds n Hn) as [Hn1 Hn2]. destruct (log2_bounds d Hd) as [Hd1 Hd2].
  assert (Hxd : x * inject_Z d == inject_Z n).
  { unfold n, d. destruct x as [xn xd]. unfold Qeq, Qmult. simpl. lia. }
  set (k := (Z.log2 n - Z.log2 d)%Z).
  assert (Hk : 2 ^ k * 2 ^ Z.log2 d == 2 ^ Z.log2 n).
  { unfold k. rewrite <- Qpower_plus by done. by replace (Z.log2 n - Z.log2 d + Z.log2 d)%Z
      with (Z.log2 n) by lia. }
  pose proof (pow2_pos k) as Hk0. pose proof (pow2_pos (Z.log2 d)) as HD0.
  pose proof (pow2_pos (Z.log2 n)) as HP0.
  assert (Hdq : 0 < inject_Z d) by (change 0 with (inject_Z 0); by rewrite <- Zlt_Qlt).
  destruct (Qle_bool (2 ^ k) x) eqn:Hle.
  - apply Qle_bool_iff in Hle. split; [done|]. rewrite pow2_succ.
    set (X := 2 ^ k) in *. set (P := 2 ^ Z.log2 n) in *. set (D := 2 ^ Z.log2 d) in *.
    clearbody X P D. nra.
  - assert (Hlt : x < 2 ^ k).
    { apply Qnot_le_lt. intros Hc. apply Qle_bool_iff in Hc. congruence. }
    replace (k - 1 + 1)%Z with k by lia. split; [|done].
    assert (Hk' : 2 ^ k == 2 * 2 ^ (k - 1)).
    { rewrite <- pow2_succ. by replace (k - 1 + 1)%Z with k by lia. }
    pose proof (pow2_pos (k - 1)) as Hk1.
    set (X := 2 ^ k) in *. set (Y := 2 ^ (k - 1)) in *.
    set (P := 2 ^ Z.log2 n) in *. set (D := 2 ^ Z.log2 d) in *.
    clearbody X Y P D. nra.
Qed.

Lemma roundHalfEven_comp x y : x == y -> Js.roundHalfEven x = Js.roundHalfEven y.
Proof.
  intros Hxy. unfold Js.roundHalfEven. rewrite (Qfloor_comp _ _ Hxy).
  assert (Hc : (x - inject_Z (Qfloor y) ?= 1 # 2) = (y - inject_Z (Qfloor y) ?= 1 # 2))
    by (by rewrite Hxy).
  by rewrite Hc.
Qed.

Lemma roundHalfEven_Z (m : Z) : Js.roundHalfEven (inject_Z m) = m.
Proof.
  unfold Js.roundHalfEven. rewrite Qfloor_Z.
  assert (Hc : (inject_Z m - inject_Z m ?= 1 # 2) = Lt).
  { rewrite <- Qlt_alt. generalize (inject_Z m). intros q. lra. }
  by rewrite Hc.
Qed.

Lemma roundHalfEven_near x :
  x - (1 # 2) <= inject_Z (Js.roundHalfEven x) /\ inject_Z (Js.roundHalfEven x) <= x + (1 # 2).
Proof.
  unfold Js.roundHalfEven.
  pose proof (Qfloor_le x) as Hlo. pose proof (Qlt_floor x) as Hhi.
  rewrite inject_Z_plus in Hhi. change (inject_Z 1) with 1 in Hhi.
  destruct (x - inject_Z (Qfloor x) ?= 1 # 2) eqn:Hc.
  - rewrite <- Qeq_alt in Hc. destruct (Z.even _); rewrite ?inject_Z_plus;
      change (inject_Z 1) with 1; set (f := inject_Z (Qfloor x)) in *; lra.
  - rewrite <- Qlt_alt in Hc. set (f := inject_Z (Qfloor x)) in *. lra.
  - rewrite <- Qgt_alt in Hc. rewrite inject_Z_plus. change (inject_Z 1) with 1.
    set (f := inject_Z (Qfloor x)) in *. lra.
Qed.

Lemma roundHalfEven_floor x : (Qfloor x <= Js.roundHalfEven x)%Z.
Proof.
  unfold Js.roundHalfEven. destruct (_ ?= _); [destruct (Z.even _)|..]; lia.
Qed.

Lemma ulp_pos a : 0 < Js.ulp a.
Proof. apply pow2_pos. Qed.

(** The nearest double is within half a spacing. *)
Lemma nearest_near a :
  a - (1 # 2) * Js.ulp a <= Js.nearest a /\ Js.nearest a <= a + (1 # 2) * Js.ulp a.
Proof.
  unfold Js.nearest. pose proof (ulp_pos a) as Hu.
  destruct (roundHalfEven_near (a / Js.ulp a)) as [Hlo Hhi].
  set (m := inject_Z (Js.roundHalfEven (a / Js.ulp a))) in *.
  assert (Ha : a == a / Js.ulp a * Js.ulp a) by (field; lra).
  set (y := a / Js.ulp a) in *. set (u := Js.ulp a) in *.
  clearbody m y u.
  pose proof (Qmult_le_compat_r _ _ u Hlo (Qlt_le_weak _ _ Hu)) as Hlo'.
  pose proof (Qmult_le_compat_r _ _ u Hhi (Qlt_le_weak _ _ Hu)) as Hhi'.
  split; lra.
Qed.

(** A multiple of the spacing is a double. *)
Lemma nearest_multiple a j : a == inject_Z j * Js.ulp a -> Js.nearest a == a.
Proof.
  intros Ha. unfold Js.nearest. pose proof (ulp_pos a) as Hu.
  assert (Hy : a / Js.ulp a == inject_Z j).
  { rewrite Ha at 1. field. lra. }
  rewrite (roundHalfEven_comp _ _ Hy), roundHalfEven_Z. by rewrite <- Ha.
Qed.

(** In the normal range the nearest double is not below the power of two
    under the number. *)
Lemma nearest_ge a :
  0 < a -> (-1022 <= Js.ilog2 a)%Z -> 2 ^ Js.ilog2 a <= Js.nearest a.
Proof.
  intros Ha He. unfold Js.nearest, Js.ulp. rewrite Z.max_l by done.
  destruct (ilog2_spec a Ha) as [Hlo _].
  set (e := Js.ilog2 a) in *.
  pose proof (pow2_pos (e - 52)) as Hu.
  assert (He52 : 2 ^ e == 2 ^ 52 * 2 ^ (e - 52)).
  { rewrite <- Qpower_plus by done. by replace (52 + (e - 52))%Z with e by lia. }
  assert (Hy : inject_Z (2 ^ 52) <= a / 2 ^ (e - 52)).
  { apply Qle_shift_div_l; [done|]. rewrite <- (pow2_inject 52) by done. by rewrite <- He52. }
  apply Qfloor_resp_le in Hy. rewrite Qfloor_Z in Hy.
  pose proof (roundHalfEven_floor (a / 2 ^ (e - 52))) as Hf.
  assert (Hm : inject_Z (2 ^ 52) <= inject_Z (Js.roundHalfEven (a / 2 ^ (e - 52))))
    by (rewrite <- Zle_Qle; lia).
  rewrite <- (pow2_inject 52) in Hm by done.
  rewrite He52. set (m := inject_Z _) in *. set (u := 2 ^ (e - 52)) in *.
  set (p := 2 ^ 52) in *. assert (0 < p) by apply pow2_pos. clearbody m u p. nra.
Qed.

Lemma numberFor_comp x y : x == y -> Js.numberFor x = Js.numberFor y.
Proof. intros Hxy. unfold Js.numberFor. by rewrite (Qred_complete _ _ Hxy). Qed.

Lemma inject_Z_pos (n : Z) : (0 < n)%Z -> 0 < inject_Z n.
Proof. intros Hn. change 0 with (inject_Z 0). by rewrite <- Zlt_Qlt. Qed.

Lemma inject_Z_neg (n : Z) : (n < 0)%Z -> inject_Z n < 0.
Proof. intros Hn. change 0 with (inject_Z 0). by rewrite <- Zlt_Qlt. Qed.

Lemma ilog2_Z (n : Z) : (0 < n)%Z -> Js.ilog2 (inject_Z n) = Z.log2 n.
Proof.
  intros Hn. unfold Js.ilog2. simpl Qnum. simpl Qden.
  change (Z.log2 1) with 0%Z. rewrite Z.sub_0_r.
  destruct (log2_bounds n Hn) as [Hlo _].
  apply Qle_bool_iff in Hlo. by rewrite Hlo.
Qed.

Lemma Qle_bool_false x y : y < x -> Qle_bool x y = false.
Proof.
  intros Hlt. destruct (Qle_bool x y) eqn:Hle; [|done].
  apply Qle_bool_iff in Hle. lra.
Qed.

Lemma numberFor_positive x :
  0 < x ->
  Js.numberFor x
  = if Qle_bool (2 ^ 1024) (Js.nearest (Qred x)) then Js.PosInfinity
    else Js.Finite (Qred (Js.nearest (Qred x))).
Proof.
  intros Hx. unfold Js.numberFor.
  assert (Hc : (Qred x ?= 0) = Gt) by (rewrite <- Qgt_alt, Qred_correct; done).
  by rewrite Hc.
Qed.

Lemma numberFor_negative x :
  x < 0 ->
  Js.numberFor x
  = if Qle_bool (2 ^ 1024) (Js.nearest (- Qred x)) then Js.NegInfinity
    else Js.Finite (Qred (- Js.nearest (- Qred x))).
Proof.
  intros Hx. unfold Js.numberFor.
  assert (Hc : (Qred x ?= 0) = Lt) by (rewrite <- Qlt_alt, Qred_correct; done).
  by rewrite Hc.
Qed.

Lemma nearest_Z (n : Z) : (0 < n <= 2 ^ 53)%Z -> Js.nearest (inject_Z n) == inject_Z n.
Proof.
  intros [Hpos Hle].
  destruct (Z.eq_dec n (2 ^ 53)) as [->|Hne]; [by vm_compute|].
  assert (Hk : (0 <= Z.log2 n <= 52)%Z).
  { split; [apply Z.log2_nonneg|]. apply Z.lt_succ_r, Z.log2_lt_pow2; lia. }
  apply (nearest_multiple _ (n * 2 ^ (52 - Z.log2 n))).
  unfold Js.ulp. rewrite (ilog2_Z n Hpos), Z.max_l by lia.
  rewrite inject_Z_mult, <- (pow2_inject (52 - Z.log2 n)) by lia.
  rewrite <- Qmult_assoc, <- Qpower_plus by done.
  replace (52 - Z.log2 n + (Z.log2 n - 52))%Z with 0%Z by lia.
  rewrite Qpower_0_r. ring.
Qed.

(** An integer of at most 53 bits is a double. *)
Lemma numberFor_Z (n : Z) :
  (Z.abs n <= 2 ^ 53)%Z -> Js.numberFor (inject_Z n) = Js.Finite (inject_Z n).
Proof.
  intros Hn. destruct (Z.lt_trichotomy n 0) as [Hneg|[->|Hpos]].
  - rewrite numberFor_negative by (by apply inject_Z_neg).
    rewrite inject_Z_Qred.
    assert (Hopp : (- inject_Z n) = inject_Z (- n)) by done.
    rewrite Hopp.
    assert (Hr : Js.nearest (inject_Z (- n)) == inject_Z (- n)) by (apply nearest_Z; lia).
    rewrite Qle_bool_false.
    + f_equal. rewrite (Qred_complete _ (inject_Z n)); [apply inject_Z_Qred|].
      rewrite Hr, inject_Z_opp. ring.
    + rewrite Hr. apply Qle_lt_trans with (inject_Z (2 ^ 53)); [|by vm_compute].
      rewrite <- Zle_Qle. lia.
  - done.
  - rewrite numberFor_positive by (by apply inject_Z_pos).
    rewrite inject_Z_Qred.
    assert (Hr : Js.nearest (inject_Z n) == inject_Z n) by (apply nearest_Z; lia).
    rewrite Qle_bool_false.
    + f_equal. rewrite (Qred_complete _ (inject_Z n)); [apply inject_Z_Qred|done].
    + rewrite Hr. apply Qle_lt_trans with (inject_Z (2 ^ 53)); [|by vm_compute].
      rewrite <- Zle_Qle. lia.
Qed.

Lemma nearest_Z_large (n : Z) :
  (2 ^ 53 <= n)%Z -> inject_Z (2 ^ 53) <= Js.nearest (inject_Z n).
Proof.
  intros Hn. assert (Hpos : (0 < n)%Z) by lia.
  assert (Hk : (53 <= Z.log2 n)%Z) by (apply Z.log2_le_pow2; lia).
  pose proof (nearest_ge (inject_Z n)) as Hge.
  rewrite (ilog2_Z n Hpos) in Hge.
  rewrite <- (pow2_inject 53) by done.
  apply Qle_trans with (2 ^ Z.log2 n); [by apply pow2_le|].
  apply Hge; [by apply inject_Z_pos|lia].
Qed.

(** Beyond 53 bits an integer reads as a double that is at least 2^53 in
    magnitude, or as an infinity. *)
Lemma numberFor_Z_large (n : Z) :
  (2 ^ 53 <= n)%Z ->
  match Js.numberFor (inject_Z n) with
  | Js.PosInfinity => True
  | Js.Finite r => inject_Z (2 ^ 53) <= r
  | _ => False
  end.
Proof.
  intros Hn. rewrite numberFor_positive by (apply inject_Z_pos; lia).
  rewrite inject_Z_Qred. destruct (Qle_bool _ _); [done|].
  rewrite Qred_correct. by apply nearest_Z_large.
Qed.

Lemma numberFor_Z_small (n : Z) :
  (n <= - 2 ^ 53)%Z ->
  match Js.numberFor (inject_Z n) with
  | Js.NegInfinity => True
  | Js.Finite r => r <= inject_Z (- 2 ^ 53)
  | _ => False
  end.
Proof.
  intros Hn. rewrite numberFor_negative by (apply inject_Z_neg; lia).
  rewrite inject_Z_Qred. destruct (Qle_bool _ _); [done|].
  rewrite Qred_correct.
  assert (Hopp : (- inject_Z n) = inject_Z (- n)) by done.
  rewrite Hopp. pose proof (nearest_Z_large (- n)) as Hge.
  set (r := Js.nearest _) in *.
  assert (inject_Z (2 ^ 53) <= r) by (apply Hge; lia). clearbody r.
  assert (Hp : inject_Z (- 2 ^ 53) = - inject_Z (2 ^ 53)) by done. rewrite Hp.
  set (p := inject_Z (2 ^ 53)) in *. clearbody p. lra.
Qed.

Lemma numberFor_not_NaN x : Js.numberFor x <> Js.NaN.
Proof.
  unfold Js.numberFor. destruct (Qred x ?= 0); [done|..]; by destruct (Qle_bool _ _).
Qed.

Lemma Qceiling_unique (r : Q) (k : Z) :
  inject_Z (k - 1) < r -> r <= inject_Z k -> Qceiling r = k.
Proof.
  intros Hlo Hhi.
  pose proof (Qceiling_lt r) as Hc1. pose proof (Qle_ceiling r) as Hc2.
  assert (H1 : inject_Z (k - 1) < inject_Z (Qceiling r)) by lra.
  assert (H2 : inject_Z (Qceiling r - 1) < inject_Z k) by lra.
  rewrite <- Zlt_Qlt in H1, H2. lia.
Qed.

(** The quotient of a count by a limit is rounded to a double with the
    same ceiling. *)
Lemma numberFor_quotient (a b : Z) :
  (0 <= a <= 2 ^ 46)%Z -> (1 <= b <= 50)%Z ->
  exists r, Js.numberFor (inject_Z a / inject_Z b) = Js.Finite r /\
            Qceiling r = Qceiling (inject_Z a / inject_Z b).
Proof.
  intros [Ha0 Ha] [Hb1 Hb].
  assert (HB : 1 <= inject_Z b /\ inject_Z b <= 50).
  { split; [change 1 with (inject_Z 1)|change 50 with (inject_Z 50)];
      rewrite <- Zle_Qle; lia. }
  destruct (Z.eq_dec a 0) as [->|Hne].
  { exists 0. split.
    - rewrite (numberFor_comp _ 0); [done|]. field. lra.
    - apply Qceiling_comp. field. lra. }
  set (x := inject_Z a / inject_Z b).
  assert (HA : 1 <= inject_Z a /\ inject_Z a <= 2 ^ 46).
  { split; [change 1 with (inject_Z 1)|rewrite (pow2_inject 46) by done];
      rewrite <- Zle_Qle; lia. }
  assert (Hxb : x * inject_Z b == inject_Z a) by (unfold x; field; lra).
  assert (Hx : 0 < x).
  { unfold x. apply Qlt_shift_div_l; lra. }
  assert (Hxa : x <= 2 ^ 46).
  { apply Qle_trans with (inject_Z a); [|lra].
    unfold x. apply Qle_shift_div_r; [lra|]. set (A := inject_Z a) in *.
    set (B := inject_Z b) in *. clearbody A B. nra. }
  rewrite (numberFor_positive x Hx).
  set (xr := Qred x). assert (Hxr : xr == x) by apply Qred_correct.
  assert (Hxr0 : 0 < xr) by lra.
  destruct (ilog2_spec xr Hxr0) as [Hlog _].
  assert (He : (Z.max (Js.ilog2 xr) (-1022) <= 46)%Z).
  { apply Z.max_lub; [|done]. apply Z.lt_succ_r, pow2_lt_inv.
    apply Qle_lt_trans with xr; [done|]. apply Qle_lt_trans with (2 ^ 46); [lra|].
    by vm_compute. }
  destruct (nearest_near xr) as [Hlo Hhi].
  assert (Hu : Js.ulp xr <= 1 # 64).
  { unfold Js.ulp. apply Qle_trans with (2 ^ (-6)); [apply pow2_le; lia|by vm_compute]. }
  pose proof (ulp_pos xr) as Hu0.
  assert (Hone : 1 == inject_Z (2 ^ (52 - Z.max (Js.ilog2 xr) (-1022))) * Js.ulp xr).
  { unfold Js.ulp. rewrite <- pow2_inject by lia. rewrite <- Qpower_plus by done.
    by replace (52 - Z.max (Js.ilog2 xr) (-1022) + (Z.max (Js.ilog2 xr) (-1022) - 52))%Z
      with 0%Z by lia. }
  set (k := Qceiling x).
  pose proof (Qceiling_lt x) as Hk1. pose proof (Qle_ceiling x) as Hk2. fold k in Hk1, Hk2.
  assert (Hr : inject_Z (k - 1) < Js.nearest xr /\ Js.nearest xr <= inject_Z k).
  { destruct (Qlt_le_dec x (inject_Z k)) as [Hlt|Hge].
    - assert (H1 : x + (1 # 50) <= inject_Z k).
      { assert (Hz : (a < k * b)%Z).
        { rewrite Zlt_Qlt, inject_Z_mult. set (K := inject_Z k) in *.
          set (A := inject_Z a) in *. set (B := inject_Z b) in *. clearbody K A B x. nra. }
        assert (Hz' : inject_Z a + 1 <= inject_Z k * inject_Z b).
        { change 1 with (inject_Z 1). rewrite <- inject_Z_plus, <- inject_Z_mult, <- Zle_Qle. lia. }
        set (K := inject_Z k) in *. set (A := inject_Z a) in *. set (B := inject_Z b) in *.
        clearbody K A B x. nra. }
      assert (H2 : inject_Z (k - 1) + (1 # 50) <= x).
      { assert (Hz : ((k - 1) * b < a)%Z).
        { rewrite Zlt_Qlt, inject_Z_mult. set (K := inject_Z (k - 1)) in *.
          set (A := inject_Z a) in *. set (B := inject_Z b) in *. clearbody K A B x. nra. }
        assert (Hz' : inject_Z (k - 1) * inject_Z b + 1 <= inject_Z a).
        { change 1 with (inject_Z 1). rewrite <- inject_Z_mult, <- inject_Z_plus, <- Zle_Qle. lia. }
        set (K := inject_Z (k - 1)) in *. set (A := inject_Z a) in *. set (B := inject_Z b) in *.
        clearbody K A B x. nra. }
      set (K := inject_Z k) in *. set (K1 := inject_Z (k - 1)) in *.
      set (r := Js.nearest xr) in *. set (u := Js.ulp xr) in *. clearbody K K1 r u xr x.
      split; lra.
    - assert (Hxk : xr == inject_Z k) by lra.
      assert (Hexact : Js.nearest xr == xr).
      { apply (nearest_multiple _ (k * 2 ^ (52 - Z.max (Js.ilog2 xr) (-1022)))).
        rewrite inject_Z_mult, <- Qmult_assoc, <- Hone. rewrite Hxk. ring. }
      rewrite Hexact, Hxk. split; [|lra]. rewrite <- Zlt_Qlt. lia. }
  rewrite Qle_bool_false.
  - eexists. split; [done|]. rewrite (Qceiling_comp _ _ (Qred_correct _)).
    apply Qceiling_unique; by destruct Hr.
  - destruct Hr as [_ Hr]. apply Qle_lt_trans with (inject_Z k); [done|].
    assert (Hk : (k <= 2 ^ 46)%Z).
    { unfold k. rewrite <- (Qceiling_Z (2 ^ 46)). apply Qceiling_resp_le.
      by rewrite <- (pow2_inject 46). }
    apply Qle_lt_trans with (inject_Z (2 ^ 46)); [by rewrite <- Zle_Qle|by vm_compute].
Qed.

End Rounding.

(** ** Comparing numbers *)


Lemma number_ge_integer (n m : Z) :
  Js.number_ge (integer n) (integer m) = (m <=? n).
Proof.
  unfold integer. simpl. destruct (Z.leb_spec m n) as [Hle|Hlt].
  - apply Qle_bool_iff. by rewrite <- Zle_Qle.
  - apply Qle_bool_false. by rewrite <- Zlt_Qlt.
Qed.

Lemma number_lt_integer (n m : Z) :
  Js.number_lt (integer n) (integer m) = (n <? m).
Proof.
  unfold integer. simpl. destruct (Z.ltb_spec n m) as [Hlt|Hle].
  - rewrite Qle_bool_false; [done|]. by rewrite <- Zlt_Qlt.
  - apply negb_false_iff, Qle_bool_iff. by rewrite <- Zle_Qle.
Qed.

(** ** Reading numbers *)

Lemma isDigit_not_whiteSpace c : Js.isDigit c = true -> Js.isWhiteSpace c = false.
Proof. unfold Js.isDigit, Js.isWhiteSpace. intros. lia. Qed.

Lemma takeDigits_decimal s : Js.takeDigits 10 s = (Js.spanDigits s).1.
Proof.
  induction s as [|c s IH]; simpl; [done|].
  unfold Js.radixDigit. destruct (Js.isDigit c) eqn:Hc; simpl.
  - rewrite IH. by destruct (Js.spanDigits s).
  - done.
Qed.

(** On the strings [isInt] accepts, [parseInt] reads the integer whose
    Number value the validator compared with its bounds. *)
Lemma mathInt_intLeadingZeroes s :
  intLeadingZeroes s = true -> Js.mathInt s = Some (numericValue s).
Proof.
  unfold intLeadingZeroes, Js.mathInt, numericValue.
  assert (Htrim : forall d ds, (Js.spanDigits (Js.takeSign s).2).1 = d :: ds ->
                               Js.trimStart s = s).
  { intros d ds. destruct s as [|c s]; [done|]. simpl.
    unfold Js.takeSign. destruct (Ascii.eqb_spec c "-") as [->|_]; [done|].
    destruct (Ascii.eqb_spec c "+") as [->|_]; [done|].
    simpl. destruct (Js.isDigit c) eqn:Hc; [|done].
    by rewrite (isDigit_not_whiteSpace _ Hc). }
  destruct (Js.spanDigits (Js.takeSign s).2) as [[|d ds] rest] eqn:Hspan; [done|].
  destruct rest; [|done]. intros _.
  rewrite (Htrim d ds) by done.
  destruct (Js.takeSign s) as [negative digits] eqn:Hsign. simpl in Hspan.
  assert (Hradix : match digits with
                   | String c0 (String c1 rest) =>
                       if Ascii.eqb c0 "0" && (Ascii.eqb c1 "x" || Ascii.eqb c1 "X")
                       then (16, rest) else (10, digits)
                   | _ => (10, digits)
                   end = (10, digits)).
  { destruct digits as [|c0 [|c1 rest]]; [done..|].
    assert (Js.isDigit c1 = true) as Hc1.
    { simpl in Hspan. destruct (Js.isDigit c0); [|done].
      destruct (Js.isDigit c1); [done|]. simpl in Hspan. by inversion Hspan. }
    destruct (Ascii.eqb_spec c1 "x") as [->|_]; [done|].
    destruct (Ascii.eqb_spec c1 "X") as [->|_]; [done|].
    by rewrite andb_false_r. }
  rewrite Hradix, takeDigits_decimal, Hspan. done.
Qed.

Lemma parseInt_intLeadingZeroes s :
  intLeadingZeroes s = true -> Js.parseInt s = ToNumber s.
Proof.
  intros Hre. unfold Js.parseInt, ToNumber. by rewrite (mathInt_intLeadingZeroes _ Hre).
Qed.



(** An integer literal that reads within the bounds is accepted. *)
Lemma isInt_within s n lo hi :
  intLeadingZeroes s = true -> Js.parseInt s = integer n ->
  lo <= n -> n <= hi ->
  isInt {| min := Some lo; max := None |} s = true /\
  isInt {| min := Some lo; max := Some hi |} s = true.
Proof.
  intros Hre Hn Hlo Hhi. unfold isInt; cbn [min max].
  rewrite Hre, <- (parseInt_intLeadingZeroes _ Hre), Hn.
  fold (integer lo) (integer hi). unfold Js.number_le.
  rewrite !number_ge_integer.
  replace (lo <=? n) with true by lia. replace (n <=? hi) with true by lia. done.
Qed.





(** ** The listing filter *)

Lemma bind_run {A B : Type} (m : Async A) (k : A -> Async B) w :
  (m ≫= k) w = match m w with
               | (Returned a, w') => k a w'
               | (Thrown e, w') => (Thrown e, w')
               end.
Proof. reflexivity. Qed.

Lemma gated_insert key c filter :
  key <> "isActive" -> key <> "status" -> gated filter -> gated (<[key := c]> filter).
Proof.
  intros Hk1 Hk2 [Ha Hs]. split; by rewrite lookup_insert_ne.
Qed.

Section ListingFilter.

Context `{RegExpEngine} `{Mongoose} `{EmailValidator}.

Lemma assignIfGiven_pure query key (make : string -> Condition) filter w :
  assignIfGiven query key (fun s => mret (make s)) filter w
  = (Returned (assigned query key make filter), w).
Proof. unfold assignIfGiven, assigned. by destruct (Js.truthy _). Qed.

Lemma assignIfGiven_regexp query key filter w :
  assignIfGiven query key new_RegExp filter w
  = if compiles (query !! key) then (Returned (assigned query key Matches filter), w)
    else (Thrown SyntaxError, w).
Proof.
  unfold assignIfGiven, assigned, compiles, new_RegExp.
  destruct (Js.truthy _); [|done]. rewrite bind_run. by destruct (regexp_valid _).
Qed.

(** The filter as a value: the route builds [filterOf query] unless the
    text given as make or model does not compile; the world is not
    touched. *)
Lemma buildFilter_filterOf query w :
  buildFilter query w
  = if compiles (query !! "make") && compiles (query !! "model")
    then (Returned (filterOf query), w) else (Thrown SyntaxError, w).
Proof.
  unfold buildFilter, filterOf. fold baseFilter.
  rewrite bind_run, assignIfGiven_regexp.
  destruct (compiles (query !! "make")); [|done].
  rewrite bind_run, assignIfGiven_regexp.
  destruct (compiles (query !! "model")); [|done].
  rewrite bind_run, (assignIfGiven_pure query "year" (fun s => EqNumber (Js.parseInt s))).
  rewrite bind_run, (assignIfGiven_pure query "condition" EqString).
  rewrite bind_run, (assignIfGiven_pure query "fuelType" EqString).
  rewrite bind_run, (assignIfGiven_pure query "transmission" EqString).
  rewrite bind_run, (assignIfGiven_pure query "bodyType" EqString).
  by destruct (Js.truthy (query !! "minPrice") || Js.truthy (query !! "maxPrice")).
Qed.


Lemma assigned_lookup_other query key make filter key' :
  key <> key' -> assigned query key make filter !! key' = filter !! key'.
Proof.
  intros Hne. unfold assigned. destruct (Js.truthy _); [|done].
  by rewrite lookup_insert_ne.
Qed.

Lemma assigned_lookup_same query key make filter :
  assigned query key make filter !! key
  = if Js.truthy (query !! key) then Some (make (toString (query !! key)))
    else filter !! key.
Proof.
  unfold assigned. destruct (Js.truthy _); [|done]. by rewrite lookup_insert_eq.
Qed.

(** No key the route assigns is one of the two conjuncts: whatever the
    query holds, the filter keeps them. *)
Lemma gated_filterOf query : gated (filterOf query).
Proof.
  assert (Hinner : forall (f : gmap string Condition),
            f = assigned query "bodyType" EqString
                  (assigned query "transmission" EqString
                     (assigned query "fuelType" EqString
                        (assigned query "condition" EqString
                           (assigned query "year" (fun s => EqNumber (Js.parseInt s))
                              (assigned query "model" Matches
                                 (assigned query "make" Matches baseFilter)))))) ->
            gated f).
  { intros f ->. split; by rewrite !assigned_lookup_other by done. }
  unfold filterOf.
  destruct (Js.truthy (query !! "minPrice") || Js.truthy (query !! "maxPrice")).
  - apply gated_insert; [done..|]. by apply Hinner.
  - by apply Hinner.
Qed.


(** The built filter fails to cast exactly when the year given does not
    read as a number. *)
Lemma castFilterFails_filterOf query :
  castFilterFails (filterOf query) = negb (yearReads query).
Proof.
  unfold castFilterFails, yearReads.
  assert (Hyear : filterOf query !! "year"
                  = if Js.truthy (query !! "year")
                    then Some (EqNumber (Js.parseInt (toString (query !! "year"))))
                    else None).
  { unfold filterOf.
    destruct (Js.truthy (query !! "minPrice") || Js.truthy (query !! "maxPrice"));
      [rewrite lookup_insert_ne by done|];
      rewrite !assigned_lookup_other by done;
      rewrite assigned_lookup_same;
      (destruct (Js.truthy (query !! "year")); [done|]);
      by rewrite !assigned_lookup_other by done. }
  rewrite Hyear. destruct (Js.truthy (query !! "year")); [|done].
  by destruct (Js.parseInt _).
Qed.

(** Building the filter never touches the world; it throws only the
    SyntaxError of a regular expression, and otherwise the filter holds the
    two conjuncts of the public listing, whatever the query says. *)
Lemma buildFilter_run query w :
  buildFilter query w = (Thrown SyntaxError, w) \/
  exists filter, buildFilter query w = (Returned filter, w) /\ gated filter.
Proof.
  rewrite buildFilter_filterOf. destruct (_ && _); [right|by left].
  exists (filterOf query). split; [done|apply gated_filterOf].
Qed.

End ListingFilter.

(** ** Running the listing route *)

Lemma afterCalls_nil w : afterCalls w [] = w.
Proof. destruct w. unfold afterCalls. simpl. by rewrite app_nil_r. Qed.

Section Listing.

Context `{RegExpEngine} `{Mongoose} `{EmailValidator}.

Lemma Vehicle_find_run filter sort skip limit w :
  Vehicle_find filter sort skip limit w
  = (if castFilterFails filter then Thrown CastError
     else match accepted filter sort skip limit with
          | None => Thrown MongoServerError
          | Some (s, l) => Returned (pageOfDocs filter sort s l (db w))
          end,
     afterCalls w [OpFind filter]).
Proof.
  unfold Vehicle_find, accepted. rewrite bind_run. simpl.
  destruct (castFilterFails filter); [done|]. simpl.
  destruct (filterRefused filter || sortRefused sort); [done|].
  by destruct (window skip limit) as [[s l]|].
Qed.

Lemma Vehicle_countDocuments_run filter w :
  Vehicle_countDocuments filter w
  = (if castFilterFails filter then Thrown CastError
     else if filterRefused filter then Thrown MongoServerError
     else Returned (Js.numberFor (inject_Z (Z.of_nat (List.length (matching filter (db w)))))),
     afterCalls w [OpCountDocuments filter]).
Proof.
  unfold Vehicle_countDocuments. rewrite bind_run. simpl.
  destruct (castFilterFails filter); [done|]. by destruct (filterRefused filter).
Qed.

Lemma get_vehicles_invalid query w e errors :
  listingErrors query = e :: errors ->
  get_vehicles query w
  = (status_json 400 (Failure "Validation failed" (Some (e :: errors))), w).
Proof.
  unfold listingErrors, get_vehicles, tryCatch. intros Herr.
  destruct (runChains "query" get_vehicles_chains query) as [es q']. simpl in Herr.
  subst. reflexivity.
Qed.

Lemma get_vehicles_syntax_error query w e :
  listingErrors query = [] ->
  buildFilter query w = (Thrown e, w) ->
  get_vehicles query w = (status_json 500 (Failure "Server error" None), w).
Proof.
  unfold listingErrors, get_vehicles, tryCatch. intros Herr Hf.
  rewrite get_vehicles_validation in *. simpl in Herr. rewrite Herr.
  rewrite bind_run, Hf. reflexivity.
Qed.

(** Once the filter is built, the handler fetches, counts and answers; a
    filter that fails to cast, a query or a window the server refuses ends
    in the catch block after the fetch was tried. *)
Lemma get_vehicles_query query w filter :
  listingErrors query = [] ->
  buildFilter query w = (Returned filter, w) ->
  get_vehicles query w
  = match accepted filter (buildSort query) (skipOf query) (limitOf query) with
    | None => (status_json 500 (Failure "Server error" None), afterCalls w [OpFind filter])
    | Some (skip, limit) =>
        let total :=
          Js.numberFor (inject_Z (Z.of_nat (List.length (matching filter (db w))))) in
        let totalPages := Js.Math_ceil (Js.div total (limitOf query)) in
        (json (Listing
                 (pageOfDocs filter (buildSort query) skip limit (db w))
                 {| currentPage := pageOf query;
                    totalPages := totalPages;
                    totalVehicles := total;
                    hasNextPage := Js.number_lt (pageOf query) totalPages;
                    hasPrevPage := Js.number_lt (Js.Finite 1) (pageOf query) |}),
         afterCalls w [OpFind filter; OpCountDocuments filter])
    end.
Proof.
  unfold listingErrors, get_vehicles, tryCatch. intros Herr Hf.
  rewrite get_vehicles_validation in *. simpl in Herr. rewrite Herr.
  rewrite bind_run, Hf. rewrite bind_run, Vehicle_find_run.
  fold (pageOf query) (limitOf query). fold (skipOf query).
  destruct (castFilterFails filter) eqn:Hcast; [by unfold accepted; rewrite Hcast|].
  destruct (accepted filter (buildSort query) (skipOf query) (limitOf query))
    as [[skip limit]|] eqn:Haccepted; [|done].
  assert (Hrefused : filterRefused filter = false).
  { unfold accepted in Haccepted. rewrite Hcast in Haccepted.
    by destruct (filterRefused filter). }
  cbv beta iota. rewrite bind_run, Vehicle_countDocuments_run, Hcast, Hrefused.
  unfold afterCalls; simpl. by rewrite <- app_assoc.
Qed.

End Listing.

(** ** The public listing shows eligible vehicles only *)

Section Eligibility.

Context `{RegExpEngine} `{Mongoose} `{EmailValidator}.

Lemma matchesFilter_lookup filter v key c :
  matchesFilter filter v = true -> filter !! key = Some c ->
  exists fv, path key v = Some fv /\ satisfies c fv = true.
Proof.
  unfold matchesFilter. intros Hall Hkey.
  rewrite forallb_forall in Hall.
  specialize (Hall (key, c)). simpl in Hall.
  destruct (path key v) as [fv|].
  - exists fv. split; [done|]. apply Hall.
    apply list_elem_of_In, elem_of_map_to_list. done.
  - exfalso. assert (false = true); [|done]. apply Hall.
    apply list_elem_of_In, elem_of_map_to_list. done.
Qed.

(** A vehicle matches the filter exactly when it passes every conjunct. *)
Lemma matchesFilter_conjuncts filter v :
  matchesFilter filter v = true <-> forall key, conjunctHolds filter key v = true.
Proof.
  unfold matchesFilter, conjunctHolds. rewrite forallb_forall. split.
  - intros Hall key. destruct (filter !! key) as [c|] eqn:Hkey; [|done].
    apply (Hall (key, c)). by apply list_elem_of_In, elem_of_map_to_list.
  - intros Hall [key c] Hin. apply list_elem_of_In, elem_of_map_to_list in Hin.
    specialize (Hall key). by rewrite Hin in Hall.
Qed.

Lemma matchesFilter_eligible filter v :
  gated filter -> matchesFilter filter v = true -> eligible v.
Proof.
  intros [Hactive Hstatus] Hm. split.
  - destruct (matchesFilter_lookup _ _ _ _ Hm Hactive) as (fv & Hp & Hs).
    change (path "isActive" v) with (Some (VBool (Vehicle.isActive v))) in Hp.
    inversion Hp; subst. simpl in Hs. by destruct (Vehicle.isActive v).
  - destruct (matchesFilter_lookup _ _ _ _ Hm Hstatus) as (fv & Hp & Hs).
    change (path "status" v) with (Some (VString (Vehicle.status v))) in Hp.
    inversion Hp; subst. unfold satisfies in Hs.
    apply String.eqb_eq in Hs. done.
Qed.

Lemma cursorLimit_elem_of {A : Type} n (docs : list A) x :
  x ∈ cursorLimit n docs -> x ∈ docs.
Proof.
  unfold cursorLimit. destruct (n =? 0); [done|].
  intros Hx. eapply elem_of_sublist; [done|apply sublist_take].
Qed.

Lemma cursorSkip_elem_of {A : Type} n (docs : list A) x :
  x ∈ cursorSkip n docs -> x ∈ docs.
Proof.
  unfold cursorSkip. intros Hx. eapply elem_of_sublist; [done|apply sublist_drop].
Qed.

(** Every document of a page comes from the matching set, whatever the
    sort, the skip and the limit. *)
Lemma pageOfDocs_matching filter sort skip limit d x :
  x ∈ pageOfDocs filter sort skip limit d ->
  exists iv, x = populate d iv /\ iv ∈ map_to_list (Vehicles d) /\
             matchesFilter filter iv.2 = true.
Proof.
  unfold pageOfDocs. intros Hx.
  apply list_elem_of_fmap in Hx as (iv & -> & Hiv).
  apply cursorLimit_elem_of, cursorSkip_elem_of in Hiv.
  rewrite (cursorSort_perm sort) in Hiv.
  unfold matching in Hiv. apply list_elem_of_In, filter_In in Hiv as [Hin Hm].
  exists iv. split; [done|]. split; [by apply list_elem_of_In|done].
Qed.

Lemma pageOfDocs_eligible filter sort skip limit d :
  gated filter ->
  Forall (fun x => eligible (doc x)) (pageOfDocs filter sort skip limit d).
Proof.
  intros Hg. apply Forall_forall. intros x Hx.
  apply pageOfDocs_matching in Hx as (iv & -> & _ & Hm).
  simpl. by eapply matchesFilter_eligible.
Qed.

(** The three ways the listing route ends. *)
Lemma get_vehicles_outcomes query w :
  (exists e errors,
     get_vehicles query w
     = (status_json 400 (Failure "Validation failed" (Some (e :: errors))), w)) \/
  (exists ops,
     get_vehicles query w
     = (status_json 500 (Failure "Server error" None), afterCalls w ops) /\
     Forall carriesGate ops /\ Forall (fun op => isWrite op = false) ops) \/
  (exists filter skip limit pagination,
     gated filter /\
     get_vehicles query w
     = (json (Listing (pageOfDocs filter (buildSort query) skip limit (db w)) pagination),
        afterCalls w [OpFind filter; OpCountDocuments filter])).
Proof.
  destruct (listingErrors query) as [|e errors] eqn:Herr.
  - destruct (buildFilter_run query w) as [Hf|(filter & Hf & Hg)].
    + right; left. exists []. rewrite afterCalls_nil.
      split; [by eapply get_vehicles_syntax_error|]. by split.
    + rewrite (get_vehicles_query _ _ _ Herr Hf).
      destruct (accepted filter _ _ _) as [[skip limit]|].
      * right; right. by eexists _, _, _, _.
      * right; left. exists [OpFind filter]. split; [done|].
        split; (constructor; [done|constructor]).
  - left. exists e, errors. by apply get_vehicles_invalid.
Qed.

End Eligibility.

(** C1.  Whatever the query holds: the filter the listing route builds
    contains [isActive: true] and [status: 'available'], every model call
    the route makes carries a filter with these two conjuncts, and every
    vehicle of the page it returns is active and available. *)
Theorem listing_always_gated `{RegExpEngine} `{Mongoose}
    (query : gmap string string) (w : World) :
  (forall filter w', buildFilter query w = (Returned filter, w') -> gated filter) /\
  (exists ops, (get_vehicles query w).2 = afterCalls w ops /\ Forall carriesGate ops) /\
  Forall (fun x => eligible (doc x)) (listed (get_vehicles query w).1).
Proof.
  split; [|split].
  - intros filter w' Hf.
    destruct (buildFilter_run query w) as [Ht|(f & Hr & Hg)]; congruence.
  - destruct (get_vehicles_outcomes query w)
      as [(e & errors & ->)|[(ops & -> & Hops & _)|(filter & skip & limit & pg & Hg & ->)]];
      simpl.
    + exists []. by rewrite afterCalls_nil.
    + by exists ops.
    + eexists. split; [done|]. repeat (constructor; [done|]). constructor.
  - destruct (get_vehicles_outcomes query w)
      as [(e & errors & ->)|[(ops & -> & _)|(filter & skip & limit & pg & Hg & ->)]];
      simpl; unfold listed; simpl; [done..|].
    by apply pageOfDocs_eligible.
Qed.

(** ** Pagination *)

Lemma ceilDiv_floor a b : ceilDiv a b = - ((- a) / b).
Proof.
  unfold ceilDiv, Qceiling. f_equal. rewrite Zdiv_Qdiv.
  apply Qfloor_comp. rewrite inject_Z_opp. unfold Qdiv. ring.
Qed.

(** The ceiling of [total / limit] is the least number of pages of [limit]
    records that hold [total] records. *)
Lemma ceilDiv_least total limit :
  0 < limit ->
  (ceilDiv total limit - 1) * limit < total <= ceilDiv total limit * limit.
Proof.
  intros Hpos. rewrite ceilDiv_floor.
  pose proof (Z.mul_div_le (- total) limit Hpos).
  pose proof (Z.mul_succ_div_gt (- total) limit Hpos).
  lia.
Qed.

(** Sums, differences and products of integers are exact up to 2^53. *)
Lemma add_integer a b :
  Z.abs (a + b) <= 2 ^ 53 -> Js.add (integer a) (integer b) = integer (a + b).
Proof.
  intros Hsum. unfold integer. simpl.
  rewrite (numberFor_comp _ (inject_Z (a + b))) by (by rewrite inject_Z_plus).
  by apply numberFor_Z.
Qed.

Lemma sub_integer a b :
  Z.abs (a - b) <= 2 ^ 53 -> Js.sub (integer a) (integer b) = integer (a - b).
Proof.
  intros Hdiff. unfold integer, Js.sub. simpl.
  rewrite (numberFor_comp _ (inject_Z (a - b)))
    by (unfold Z.sub; by rewrite inject_Z_plus, inject_Z_opp).
  by apply numberFor_Z.
Qed.

Lemma mul_integer a b :
  Z.abs (a * b) <= 2 ^ 53 -> Js.mul (integer a) (integer b) = integer (a * b).
Proof.
  intros Hprod. unfold integer. simpl.
  rewrite (numberFor_comp _ (inject_Z (a * b))) by (by rewrite inject_Z_mult).
  by apply numberFor_Z.
Qed.

Lemma Qeq_bool_integer (n : Z) : Qeq_bool (inject_Z n) 0 = (n =? 0).
Proof.
  destruct (Z.eqb_spec n 0) as [->|Hne]; [done|].
  destruct (Qeq_bool (inject_Z n) 0) eqn:Heq; [|done].
  apply Qeq_bool_iff in Heq. unfold Qeq in Heq. simpl in Heq. lia.
Qed.

Lemma toInt64_integer n : - 2 ^ 63 <= n < 2 ^ 63 -> Js.toInt64 (integer n) = Some n.
Proof.
  intros Hn. unfold integer, Js.toInt64. rewrite Qfloor_Z.
  assert (Heq : Qeq_bool (inject_Z n) (inject_Z n) = true) by (by apply Qeq_bool_iff).
  rewrite Heq. replace (- 2 ^ 63 <=? n) with true by lia.
  by replace (n <? 2 ^ 63) with true by lia.
Qed.

Lemma or_default_integer n d : n <> 0 -> Js.or_default (integer n) d = integer n.
Proof.
  intros Hn. unfold integer, Js.or_default. rewrite Qeq_bool_integer.
  by replace (n =? 0) with false by lia.
Qed.

(** [Math.ceil(total / limit)] on a count and a limit. *)
Lemma Math_ceil_div total limit :
  0 <= total <= 2 ^ 46 -> 1 <= limit <= 50 ->
  Js.Math_ceil (Js.div (Js.numberFor (inject_Z total)) (integer limit))
  = integer (ceilDiv total limit).
Proof.
  intros Htotal Hlimit. rewrite numberFor_Z by lia.
  unfold integer, Js.div. rewrite Qeq_bool_integer.
  replace (limit =? 0) with false by lia.
  destruct (numberFor_quotient total limit Htotal Hlimit) as (r & -> & Hr).
  simpl. by rewrite Hr.
Qed.

Section Pagination.

Context `{RegExpEngine} `{Mongoose} `{EmailValidator}.

(** What the handler reads as page and limit. *)
Lemma requested_pageOf query page :
  requested query "page" page 1 -> 1 <= page -> pageOf query = integer page.
Proof.
  unfold requested, pageOf, Js.parseInt_opt. intros Hreq Hpage.
  destruct (query !! "page") as [s|].
  - destruct Hreq as [_ ->]. apply or_default_integer. lia.
  - by subst.
Qed.

Lemma requested_limitOf query limit :
  requested query "limit" limit 10 -> 1 <= limit -> limitOf query = integer limit.
Proof.
  unfold requested, limitOf, Js.parseInt_opt. intros Hreq Hlimit.
  destruct (query !! "limit") as [s|].
  - destruct Hreq as [_ ->]. apply or_default_integer. lia.
  - by subst.
Qed.

(** A page of at least 1, a limit between 1 and 50 and price bounds that
    pass their check make a request that validates. *)
Lemma requested_listingErrors query page limit :
  requested query "page" page 1 -> requested query "limit" limit 10 ->
  1 <= page -> 1 <= limit <= 50 -> pricesValidate query ->
  listingErrors query = [].
Proof.
  unfold requested, pricesValidate, listingErrors. intros Hp Hl Hpage Hlimit Hprices.
  apply Forall_cons in Hprices as [Hmin Hprices]. apply Forall_cons in Hprices as [Hmax _].
  rewrite get_vehicles_validation. cbn [fst]. unfold optionalCheck.
  destruct (query !! "page") as [s|].
  { destruct Hp as [Hre Hn].
    destruct (isInt_within s page 1 page Hre Hn) as [-> _]; [lia..|].
    destruct (query !! "limit") as [s'|].
    - destruct Hl as [Hre' Hn'].
      destruct (isInt_within s' limit 1 50 Hre' Hn') as [_ ->]; [lia..|].
      destruct (query !! "minPrice") as [smin|]; [rewrite (Hmin smin) by done|];
        (destruct (query !! "maxPrice") as [smax|]; [by rewrite (Hmax smax)|done]).
    - destruct (query !! "minPrice") as [smin|]; [rewrite (Hmin smin) by done|];
        (destruct (query !! "maxPrice") as [smax|]; [by rewrite (Hmax smax)|done]). }
  destruct (query !! "limit") as [s'|].
  - destruct Hl as [Hre' Hn'].
    destruct (isInt_within s' limit 1 50 Hre' Hn') as [_ ->]; [lia..|].
    destruct (query !! "minPrice") as [smin|]; [rewrite (Hmin smin) by done|];
      (destruct (query !! "maxPrice") as [smax|]; [by rewrite (Hmax smax)|done]).
  - destruct (query !! "minPrice") as [smin|]; [rewrite (Hmin smin) by done|];
      (destruct (query !! "maxPrice") as [smax|]; [by rewrite (Hmax smax)|done]).
Qed.

(** The window of a validated request, where the arithmetic is exact. *)
Lemma requested_window query page limit :
  requested query "page" page 1 -> requested query "limit" limit 10 ->
  1 <= page -> 1 <= limit <= 50 -> page * limit <= 2 ^ 53 ->
  window (skipOf query) (limitOf query) = Some ((page - 1) * limit, limit).
Proof.
  intros Hp Hl Hpage Hlimit Hexact. unfold skipOf, window.
  rewrite (requested_pageOf _ _ Hp Hpage), (requested_limitOf _ _ Hl) by lia.
  change (Js.Finite 1) with (integer 1).
  rewrite sub_integer, mul_integer by nia.
  rewrite !toInt64_integer by nia.
  by replace ((page - 1) * limit <? 0) with false by nia.
Qed.

(** A validated request whose filter is built and casts is answered with
    the page of the sorted matches and the pagination block. *)
Lemma get_vehicles_page query w page limit :
  requested query "page" page 1 -> requested query "limit" limit 10 ->
  1 <= page -> 1 <= limit <= 50 -> page * limit <= 2 ^ 53 ->
  pricesValidate query ->
  compiles (query !! "make") = true ->
  compiles (query !! "model") = true ->
  yearReads query = true ->
  filterRefused (filterOf query) = false ->
  sortRefused (buildSort query) = false ->
  let matches := matching (filterOf query) (db w) in
  let total := Z.of_nat (List.length matches) in
  total <= 2 ^ 46 ->
  get_vehicles query w
  = (json (Listing
             (populate (db w) <$>
                take (Z.to_nat limit)
                  (drop (Z.to_nat ((page - 1) * limit))
                     (cursorSort (buildSort query) matches)))
             {| currentPage := integer page;
                totalPages := integer (ceilDiv total limit);
                totalVehicles := integer total;
                hasNextPage := page <? ceilDiv total limit;
                hasPrevPage := 1 <? page |}),
     afterCalls w [OpFind (filterOf query); OpCountDocuments (filterOf query)]).
Proof.
  intros Hp Hl Hpage Hlimit Hexact Hprices Hmake Hmodel Hyear Hfilter Hsort
    matches total Htotal.
  assert (Herr : listingErrors query = []) by by eapply requested_listingErrors.
  assert (Hf : buildFilter query w = (Returned (filterOf query), w))
    by by rewrite buildFilter_filterOf, Hmake, Hmodel.
  assert (Hcast : castFilterFails (filterOf query) = false)
    by by rewrite castFilterFails_filterOf, Hyear.
  rewrite (get_vehicles_query _ _ _ Herr Hf). unfold accepted.
  rewrite Hcast, Hfilter, Hsort. cbn [orb].
  rewrite (requested_window _ _ _ Hp Hl) by done.
  cbv beta iota zeta. fold matches. fold total.
  rewrite (requested_pageOf _ _ Hp Hpage), (requested_limitOf _ _ Hl) by lia.
  rewrite Math_ceil_div by (unfold total; lia).
  rewrite numberFor_Z by (unfold total; lia). fold (integer total).
  change (Js.Finite 1) with (integer 1). rewrite !number_lt_integer.
  unfold pageOfDocs, cursorLimit, cursorSkip.
  replace (limit =? 0) with false by lia.
  by replace (Z.abs limit) with limit by lia.
Qed.

End Pagination.

(** C2 as amended.  A listing request whose page (an integer literal, 1
    when absent) is at least 1 and whose limit (10 when absent) is between
    1 and 50, whose price bounds pass their check, whose make and model
    compile as regular expressions, whose year reads as a number and whose
    filter and sort the server does not refuse, is
    answered with status 200 and: at most [limit] vehicles, namely the
    sorted matches after the first [(page - 1) * limit]; [currentPage =
    page]; [totalVehicles] the number of all matches; [totalPages =
    ceil(total / limit)], the least number of pages that holds them;
    [hasNextPage = (page < totalPages)]; [hasPrevPage = (page > 1)].  The
    numbers are within the range where the arithmetic on doubles is exact:
    [page * limit] is at most 2^53 and there are at most 2^46 matches. *)
Theorem listing_pagination `{RegExpEngine} `{Mongoose}
    (query : gmap string string) (w : World) (page limit : Z) :
  requested query "page" page 1 ->
  requested query "limit" limit 10 ->
  1 <= page -> 1 <= limit <= 50 ->
  pricesValidate query ->
  compiles (query !! "make") = true ->
  compiles (query !! "model") = true ->
  yearReads query = true ->
  filterRefused (filterOf query) = false ->
  sortRefused (buildSort query) = false ->
  let matches := matching (filterOf query) (db w) in
  let total := Z.of_nat (List.length matches) in
  page * limit <= 2 ^ 53 -> total <= 2 ^ 46 ->
  listingErrors query = [] /\
  exists vehicles pagination,
    get_vehicles query w
    = (status_json 200 (Listing vehicles pagination),
       afterCalls w [OpFind (filterOf query); OpCountDocuments (filterOf query)]) /\
    vehicles = populate (db w) <$>
                 take (Z.to_nat limit)
                   (drop (Z.to_nat ((page - 1) * limit))
                      (cursorSort (buildSort query) matches)) /\
    Z.of_nat (List.length vehicles) <= limit /\
    currentPage pagination = integer page /\
    totalVehicles pagination = integer total /\
    totalPages pagination = integer (ceilDiv total limit) /\
    (ceilDiv total limit - 1) * limit < total <= ceilDiv total limit * limit /\
    hasNextPage pagination = (page <? ceilDiv total limit) /\
    hasPrevPage pagination = (1 <? page).
Proof.
  intros Hp Hl Hpage Hlimit Hprices Hmake Hmodel Hyear Hfilter Hsort matches total
    Hexact Htotal.
  split; [by eapply requested_listingErrors|].
  eexists _, _.
  split; [by apply (get_vehicles_page query w page limit)|].
  split; [done|]. cbn [currentPage totalVehicles totalPages hasNextPage hasPrevPage].
  split; [rewrite length_fmap, length_take; lia|].
  repeat (split; [done|]).
  split; [|done]. apply ceilDiv_least. lia.
Qed.

(** ** Malformed pagination and price parameters *)

Section Rejection.

Context `{RegExpEngine} `{Mongoose} `{EmailValidator}.




(** With no filter parameter the filter is the base filter. *)
Lemma buildFilter_plain query w :
  Forall (fun key => query !! key = None)
    ["make"; "model"; "year"; "condition"; "fuelType"; "transmission"; "bodyType";
     "minPrice"; "maxPrice"] ->
  buildFilter query w = (Returned baseFilter, w).
Proof.
  intros Hnone. repeat (apply Forall_cons in Hnone as [? Hnone]).
  unfold buildFilter, assignIfGiven.
  repeat match goal with Hk : query !! _ = None |- _ => rewrite Hk; clear Hk end.
  reflexivity.
Qed.

End Rejection.


(** ** Text filters: make and model *)





Section TextFilters.

Context `{RegExpEngine} `{Mongoose} `{EmailValidator}.



(** On every engine the text [.] is a wildcard: the conjunct lets through
    any vehicle whose field is a non-empty single line, whether or not the
    field contains a full stop. *)
Lemma conjunctHolds_wildcard filter key v c field :
  filter !! key = Some (Matches ".") ->
  path key v = Some (VString (String c field)) ->
  RegExp.singleLine (String c field) = true ->
  conjunctHolds filter key v = true.
Proof.
  intros Hkey Hpath Hline. unfold conjunctHolds. rewrite Hkey, Hpath.
  unfold satisfies.
  destruct (regexp_simple "." [RegExp.AAny] eq_refl) as [_ Htest].
  rewrite Htest by by right.
  simpl in Hline. apply andb_true_iff in Hline as [Hc _].
  simpl. by rewrite Hc.
Qed.

End TextFilters.


(** ** Routes on one vehicle *)

Section SingleVehicle.

Context `{RegExpEngine} `{Mongoose} `{EmailValidator}.

Lemma Vehicle_findById_run id w :
  Vehicle_findById id w
  = (match id with
     | None => Returned None
     | Some s =>
         match castObjectId s with
         | None => Thrown CastError
         | Some oid => Returned (pair oid <$> Vehicles (db w) !! oid)
         end
     end,
     afterCalls w [OpFindById "Vehicle" id]).
Proof.
  unfold Vehicle_findById. rewrite bind_run. simpl.
  destruct id as [s|]; [|done]. by destruct (castObjectId s).
Qed.

(** Counting a view changes nothing that validation looks at. *)
Lemma validate_incrementViews maxYear v :
  Vehicle.validate maxYear (Vehicle.incrementViews v) = Vehicle.validate maxYear v.
Proof.
  unfold Vehicle.validate. cbn [Vehicle.incrementViews Vehicle.make Vehicle.model Vehicle.year
    Vehicle.price Vehicle.originalPrice Vehicle.mileage Vehicle.fuelType Vehicle.transmission
    Vehicle.bodyType Vehicle.engine Vehicle.image Vehicle.condition Vehicle.badge
    Vehicle.status Vehicle.views].
  f_equal. destruct (Vehicle.views v) as [|x| |]; try done.
  simpl. by destruct (Js.numberFor (x + 1)) eqn:Hsum; [apply numberFor_not_NaN in Hsum|..].
Qed.

(** A fetch of a stored vehicle: the view is counted when the document
    passes the validation of [save()], and the catch block answers when it
    does not. *)
Lemma get_vehicle_stored id oid v w :
  castObjectId id = Some oid -> Vehicles (db w) !! oid = Some v ->
  get_vehicle id w
  = if Vehicle.validate (schemaYear + 1) v
    then (json (Single (populate (db (afterView w id oid v))
                          (oid, Vehicle.incrementViews v))),
          afterView w id oid v)
    else (status_json 500 (Failure "Server error" None),
          afterCalls w [OpFindById "Vehicle" (Some id); OpSave oid]).
Proof.
  intros Hcast Hfound. unfold get_vehicle, tryCatch.
  rewrite bind_run, Vehicle_findById_run, Hcast, Hfound. cbn [fmap option_fmap option_map].
  cbv beta iota. rewrite bind_run. unfold Vehicle_save. rewrite bind_run.
  cbn [record]. rewrite validate_incrementViews.
  destruct (Vehicle.validate (schemaYear + 1) v).
  - unfold afterView, afterCalls. simpl. by rewrite <- app_assoc.
  - unfold afterCalls. simpl. by rewrite <- app_assoc.
Qed.

Lemma get_vehicle_found id oid v w :
  castObjectId id = Some oid -> Vehicles (db w) !! oid = Some v ->
  Vehicle.validate (schemaYear + 1) v = true ->
  get_vehicle id w
  = (json (Single (populate (db (afterView w id oid v)) (oid, Vehicle.incrementViews v))),
     afterView w id oid v).
Proof.
  intros Hcast Hfound Hvalid. by rewrite (get_vehicle_stored id oid v w Hcast Hfound), Hvalid.
Qed.

(** The counter of an integer number of views below 2^53. *)
Lemma incrementViews_integer v n :
  Vehicle.views v = integer n -> - 2 ^ 53 <= n < 2 ^ 53 ->
  Vehicle.views (Vehicle.incrementViews v) = integer (n + 1).
Proof.
  intros Hviews Hn. cbn [Vehicle.incrementViews Vehicle.views]. rewrite Hviews.
  change (Js.Finite 1) with (integer 1). apply add_integer. lia.
Qed.

Lemma get_vehicle_missing id oid w :
  castObjectId id = Some oid -> Vehicles (db w) !! oid = None ->
  get_vehicle id w
  = (status_json 404 (Failure "Vehicle not found" None),
     afterCalls w [OpFindById "Vehicle" (Some id)]).
Proof.
  intros Hcast Hnone. unfold get_vehicle, tryCatch.
  by rewrite bind_run, Vehicle_findById_run, Hcast, Hnone.
Qed.

Lemma get_vehicle_cast_error id w :
  castObjectId id = None ->
  get_vehicle id w
  = (status_json 500 (Failure "Server error" None),
     afterCalls w [OpFindById "Vehicle" (Some id)]).
Proof.
  intros Hcast. unfold get_vehicle, tryCatch.
  by rewrite bind_run, Vehicle_findById_run, Hcast.
Qed.

Lemma put_vehicle_cast_error user id body w :
  castObjectId id = None ->
  put_vehicle user id body w
  = (status_json 500 (Failure "Server error" None),
     afterCalls w [OpFindById "Vehicle" (Some id)]).
Proof.
  intros Hcast. unfold put_vehicle, tryCatch.
  by rewrite bind_run, Vehicle_findById_run, Hcast.
Qed.

Lemma delete_vehicle_cast_error user id w :
  castObjectId id = None ->
  delete_vehicle user id w
  = (status_json 500 (Failure "Server error" None),
     afterCalls w [OpFindById "Vehicle" (Some id)]).
Proof.
  intros Hcast. unfold delete_vehicle, tryCatch.
  by rewrite bind_run, Vehicle_findById_run, Hcast.
Qed.

Lemma put_vehicle_missing user id body oid w :
  castObjectId id = Some oid -> Vehicles (db w) !! oid = None ->
  put_vehicle user id body w
  = (status_json 404 (Failure "Vehicle not found" None),
     afterCalls w [OpFindById "Vehicle" (Some id)]).
Proof.
  intros Hcast Hnone. unfold put_vehicle, tryCatch.
  by rewrite bind_run, Vehicle_findById_run, Hcast, Hnone.
Qed.

Lemma delete_vehicle_missing user id oid w :
  castObjectId id = Some oid -> Vehicles (db w) !! oid = None ->
  delete_vehicle user id w
  = (status_json 404 (Failure "Vehicle not found" None),
     afterCalls w [OpFindById "Vehicle" (Some id)]).
Proof.
  intros Hcast Hnone. unfold delete_vehicle, tryCatch.
  by rewrite bind_run, Vehicle_findById_run, Hcast, Hnone.
Qed.

Lemma notOwnerNorAdmin_true v user :
  Vehicle.dealer v <> AuthUser.id user -> AuthUser.role user <> "admin" ->
  notOwnerNorAdmin v user = true.
Proof.
  intros Hd Hr. unfold notOwnerNorAdmin.
  apply String.eqb_neq in Hd, Hr. by rewrite Hd, Hr.
Qed.

Lemma put_vehicle_forbidden user id body oid v w :
  castObjectId id = Some oid -> Vehicles (db w) !! oid = Some v ->
  Vehicle.dealer v <> AuthUser.id user -> AuthUser.role user <> "admin" ->
  put_vehicle user id body w
  = (status_json 403 (Failure "Not authorized to update this vehicle" None),
     afterCalls w [OpFindById "Vehicle" (Some id)]).
Proof.
  intros Hcast Hfound Hd Hr. unfold put_vehicle, tryCatch.
  rewrite bind_run, Vehicle_findById_run, Hcast, Hfound. simpl.
  by rewrite notOwnerNorAdmin_true.
Qed.

Lemma delete_vehicle_forbidden user id oid v w :
  castObjectId id = Some oid -> Vehicles (db w) !! oid = Some v ->
  Vehicle.dealer v <> AuthUser.id user -> AuthUser.role user <> "admin" ->
  delete_vehicle user id w
  = (status_json 403 (Failure "Not authorized to delete this vehicle" None),
     afterCalls w [OpFindById "Vehicle" (Some id)]).
Proof.
  intros Hcast Hfound Hd Hr. unfold delete_vehicle, tryCatch.
  rewrite bind_run, Vehicle_findById_run, Hcast, Hfound. simpl.
  by rewrite notOwnerNorAdmin_true.
Qed.

End SingleVehicle.

(** C9 as amended.  Every successful fetch of a vehicle by identifier
    stores it with its view counter incremented, every other path and
    document as before, and the increment is exactly 1 for a counter that
    is an integer below 2^53 in magnitude.  A stored vehicle that passes
    the validation of the schema is fetched with status 200, and fetching
    it twice in sequence leaves the counter exactly 2 higher than at the
    start.  The listing route never changes the database and makes no
    writing model call. *)
Theorem single_fetch_counts_view `{RegExpEngine} `{Mongoose} :
  (forall ident w,
     statusCode (get_vehicle ident w).1 = 200 ->
     exists oid v,
       castObjectId ident = Some oid /\ Vehicles (db w) !! oid = Some v /\
       Vehicles (db (get_vehicle ident w).2)
       = <[oid := Vehicle.incrementViews v]> (Vehicles (db w)) /\
       forall n, Vehicle.views v = integer n -> - 2 ^ 53 <= n < 2 ^ 53 ->
                 Vehicle.views (Vehicle.incrementViews v) = integer (n + 1)) /\
  (forall ident oid v w n,
     castObjectId ident = Some oid -> Vehicles (db w) !! oid = Some v ->
     Vehicle.validate (schemaYear + 1) v = true ->
     Vehicle.views v = integer n -> - 2 ^ 53 <= n -> n + 2 <= 2 ^ 53 ->
     let first := get_vehicle ident w in
     let second := get_vehicle ident first.2 in
     statusCode first.1 = 200 /\
     (exists x, body first.1 = Single x /\ _id x = oid /\
                Vehicle.views (doc x) = integer (n + 1)) /\
     Vehicles (db first.2) = <[oid := Vehicle.incrementViews v]> (Vehicles (db w)) /\
     Vehicle.views <$> Vehicles (db first.2) !! oid = Some (integer (n + 1)) /\
     statusCode second.1 = 200 /\
     Vehicle.views <$> Vehicles (db second.2) !! oid = Some (integer (n + 2))) /\
  (forall query w,
     db (get_vehicles query w).2 = db w /\
     exists ops, log (get_vehicles query w).2 = log w ++ ops /\
                 Forall (fun op => isWrite op = false) ops).
Proof.
  split; [|split].
  - intros ident w Hok.
    destruct (castObjectId ident) as [oid|] eqn:Hcast;
      [|by rewrite (get_vehicle_cast_error ident w Hcast) in Hok].
    destruct (Vehicles (db w) !! oid) as [v|] eqn:Hfound;
      [|by rewrite (get_vehicle_missing ident oid w Hcast Hfound) in Hok].
    rewrite (get_vehicle_stored ident oid v w Hcast Hfound) in Hok |- *.
    destruct (Vehicle.validate (schemaYear + 1) v); [|done].
    exists oid, v. split; [done|]. split; [done|]. split; [done|].
    apply incrementViews_integer.
  - intros ident oid v w n Hcast Hfound Hvalid Hviews Hlo Hhi first second.
    assert (Hfirst : first = get_vehicle ident w) by done.
    rewrite (get_vehicle_found ident oid v w Hcast Hfound Hvalid) in Hfirst.
    assert (Hstored : Vehicles (db first.2) !! oid = Some (Vehicle.incrementViews v)).
    { rewrite Hfirst. simpl. apply lookup_insert_eq. }
    assert (Hvalid' : Vehicle.validate (schemaYear + 1) (Vehicle.incrementViews v) = true)
      by by rewrite validate_incrementViews.
    assert (Hone : Vehicle.views (Vehicle.incrementViews v) = integer (n + 1))
      by (apply incrementViews_integer; [done|lia]).
    assert (Htwo : Vehicle.views (Vehicle.incrementViews (Vehicle.incrementViews v))
                   = integer (n + 2)).
    { replace (n + 2) with (n + 1 + 1) by lia. apply incrementViews_integer; [done|lia]. }
    assert (Hsecond : second = get_vehicle ident first.2) by done.
    rewrite (get_vehicle_found ident oid _ _ Hcast Hstored Hvalid') in Hsecond.
    rewrite Hsecond, Hfirst. cbn [fst snd json status_json statusCode body db afterView].
    split; [done|]. split; [by eexists|]. split; [done|].
    cbn [setVehicles Vehicles]. rewrite !lookup_insert_eq. cbn [fmap option_fmap option_map].
    split; [by rewrite Hone|]. split; [done|]. by rewrite Htwo.
  - intros query w.
    destruct (get_vehicles_outcomes query w)
      as [(e & errors & ->)|[(ops & -> & _ & Hops)|(filter & skip & limit & pg & _ & ->)]];
      simpl.
    + split; [done|]. exists []. by rewrite app_nil_r.
    + split; [done|]. by exists ops.
    + split; [done|]. eexists. split; [done|]. repeat (constructor; [done|]). constructor.
Qed.

(** C4.  For an identifier that casts: when the vehicle exists and the
    caller is neither its dealer nor an admin, update and delete answer 403
    with a failure envelope, after the one lookup and with the database as
    it was; when no vehicle has the identifier they answer 404. *)
Theorem mutation_forbidden_or_missing `{Mongoose}
    (user : AuthUser.t) (ident : string) (oid : ObjectId) (update : gmap string string)
    (w : World) :
  castObjectId ident = Some oid ->
  (forall v,
     Vehicles (db w) !! oid = Some v ->
     Vehicle.dealer v <> AuthUser.id user -> AuthUser.role user <> "admin" ->
     put_vehicle user ident update w
     = (status_json 403 (Failure "Not authorized to update this vehicle" None),
        afterCalls w [OpFindById "Vehicle" (Some ident)]) /\
     delete_vehicle user ident w
     = (status_json 403 (Failure "Not authorized to delete this vehicle" None),
        afterCalls w [OpFindById "Vehicle" (Some ident)])) /\
  (Vehicles (db w) !! oid = None ->
     put_vehicle user ident update w
     = (status_json 404 (Failure "Vehicle not found" None),
        afterCalls w [OpFindById "Vehicle" (Some ident)]) /\
     delete_vehicle user ident w
     = (status_json 404 (Failure "Vehicle not found" None),
        afterCalls w [OpFindById "Vehicle" (Some ident)])).
Proof.
  intros Hcast. split.
  - intros v Hfound Hd Hr. split.
    + by apply (put_vehicle_forbidden user ident update oid v w).
    + by apply (delete_vehicle_forbidden user ident oid v w).
  - intros Hnone. split.
    + by apply (put_vehicle_missing user ident update oid w).
    + by apply (delete_vehicle_missing user ident oid w).
Qed.

(** ** Contact routes *)

Lemma runChain_lookup_other loc c data key :
  field c <> key -> (runChain loc c data).2 !! key = data !! key.
Proof.
  intros Hkey. unfold runChain.
  destruct (opt c), (data !! field c) as [s|] eqn:Hs;
    try done; destruct (runSteps _ _ _ _) as [es [s'|]]; simpl; try done;
    try (destruct (decide _); [done|by rewrite lookup_insert_ne]);
    by rewrite lookup_insert_ne.
Qed.

(** Sanitizers write to the fields of their own chains only. *)
Lemma runChains_lookup_other loc cs data key :
  Forall (fun c => field c <> key) cs ->
  (runChains loc cs data).2 !! key = data !! key.
Proof.
  revert data. induction cs as [|c cs IH]; intros data Hcs; simpl; [done|].
  apply Forall_cons in Hcs as [Hc Hcs].
  pose proof (runChain_lookup_other loc c data key Hc) as Hone.
  destruct (runChain loc c data) as [es data']. simpl in Hone.
  pose proof (IH data' Hcs) as Hrest.
  destruct (runChains loc cs data') as [es' data'']. simpl in *. congruence.
Qed.

Lemma isIn_elem_of values s : isIn values s = true <-> s ∈ values.
Proof.
  unfold isIn. rewrite existsb_exists. split.
  - intros (x & Hin & Heq). apply String.eqb_eq in Heq. subst.
    by apply list_elem_of_In.
  - intros Hin. exists s. split; [by apply list_elem_of_In|apply String.eqb_refl].
Qed.

Section ContactRoutes.

Context `{RegExpEngine} `{Mongoose} `{EmailValidator}.

Lemma post_contact_unresolved body body' w :
  runChains "body" post_contact_chains body = ([], body') ->
  ~ resolves (body !! "vehicleId") (db w) ->
  post_contact body w
  = (status_json 500 (Failure "Server error. Please try again later." None),
     afterCalls w [OpFindById "Vehicle" (body !! "vehicleId")]).
Proof.
  intros Hval Hno. unfold post_contact, tryCatch. rewrite Hval.
  assert (Hid : body' !! "vehicleId" = body !! "vehicleId").
  { replace body' with (runChains "body" post_contact_chains body).2 by by rewrite Hval.
    apply runChains_lookup_other. repeat (constructor; [done|]). constructor. }
  cbv beta iota. rewrite bind_run, Vehicle_findById_run, Hid.
  destruct (body !! "vehicleId") as [s|] eqn:Hs; [|done].
  destruct (castObjectId s) as [oid|] eqn:Hcast; [|done].
  destruct (Vehicles (db w) !! oid) as [v|] eqn:Hv; [|done].
  exfalso. apply Hno. by exists s, oid, v.
Qed.

Lemma put_contact_status_validation body :
  runChains "body" put_contact_status_chains body
  = (requiredCheck "body" body "status" (isIn Contact.status_enum) "Invalid status", body).
Proof.
  unfold put_contact_status_chains, runChains.
  rewrite runChain_required_check. by rewrite app_nil_r.
Qed.

Lemma Contact_findByIdAndUpdate_found ident oid c status w :
  castObjectId ident = Some oid -> Contacts (db w) !! oid = Some c ->
  Contact_findByIdAndUpdate ident status w
  = (Returned (Some (oid, Contact.setStatus status c)),
     {| db := setContacts (<[oid := Contact.setStatus status c]> (Contacts (db w))) (db w);
        log := log w ++ [OpFindByIdAndUpdate "Contact" ident] |}).
Proof.
  intros Hcast Hfound. unfold Contact_findByIdAndUpdate.
  rewrite bind_run. simpl. rewrite Hcast. rewrite bind_run. simpl. by rewrite Hfound.
Qed.

Lemma put_contact_status_cast_error ident update target w :
  castObjectId ident = None ->
  update !! "status" = Some target -> target ∈ Contact.status_enum ->
  put_contact_status ident update w
  = (status_json 500 (Failure "Server error" None),
     afterCalls w [OpFindByIdAndUpdate "Contact" ident]).
Proof.
  intros Hcast Hstatus Htarget. unfold put_contact_status, tryCatch.
  rewrite put_contact_status_validation. unfold requiredCheck.
  rewrite Hstatus. change (toString (Some target)) with target.
  apply isIn_elem_of in Htarget. rewrite Htarget.
  cbv beta iota. rewrite bind_run. unfold Contact_findByIdAndUpdate.
  rewrite bind_run. simpl. by rewrite Hcast.
Qed.

End ContactRoutes.

(** C7.  For an identifier that fails to cast, every route that looks a
    record up by identifier answers 500 from its own catch block: the three
    vehicle routes, and the contact status route once its body validates.
    The terminal handler, which would answer 400 for the same CastError, is
    never given the error. *)
Theorem malformed_identifier_is_server_error `{Mongoose}
    (user : AuthUser.t) (ident : string) (update : gmap string string) (w : World) :
  castObjectId ident = None ->
  get_vehicle ident w
  = (status_json 500 (Failure "Server error" None),
     afterCalls w [OpFindById "Vehicle" (Some ident)]) /\
  put_vehicle user ident update w
  = (status_json 500 (Failure "Server error" None),
     afterCalls w [OpFindById "Vehicle" (Some ident)]) /\
  delete_vehicle user ident w
  = (status_json 500 (Failure "Server error" None),
     afterCalls w [OpFindById "Vehicle" (Some ident)]) /\
  (forall target,
     update !! "status" = Some target -> target ∈ Contact.status_enum ->
     put_contact_status ident update w
     = (status_json 500 (Failure "Server error" None),
        afterCalls w [OpFindByIdAndUpdate "Contact" ident])) /\
  forall message, errorHandler (castError message) = (400, "Invalid ID format", None).
Proof.
  intros Hcast.
  split; [by apply get_vehicle_cast_error|].
  split; [by apply put_vehicle_cast_error|].
  split; [by apply delete_vehicle_cast_error|].
  split; [|done]. intros target Hstatus Htarget.
  by apply (put_contact_status_cast_error ident update target w).
Qed.

(** C8.  A contact form that passes validation and whose vehicle
    identifier resolves to no stored vehicle (absent, not an identifier, or
    an identifier no vehicle has) is answered by the catch block: status
    500 with a failure envelope ([success: false]), after the one lookup;
    the database, and so the contact collection, is as before. *)
Theorem contact_for_unknown_vehicle `{Mongoose} `{EmailValidator}
    (form : gmap string string) (w : World) :
  (runChains "body" post_contact_chains form).1 = [] ->
  ~ resolves (form !! "vehicleId") (db w) ->
  post_contact form w
  = (status_json 500 (Failure "Server error. Please try again later." None),
     afterCalls w [OpFindById "Vehicle" (form !! "vehicleId")]) /\
  success (body (post_contact form w).1) = Some false /\
  Contacts (db (post_contact form w).2) = Contacts (db w).
Proof.
  intros Hval Hno.
  destruct (runChains "body" post_contact_chains form) as [errors form'] eqn:Hrun.
  simpl in Hval. subst errors.
  rewrite (post_contact_unresolved form form' w Hrun Hno). done.
Qed.

(** C5.  For a stored inquiry in whatever status and a target among new,
    in_progress, resolved and closed, the status update answers 200 and
    stores the inquiry with that status and [isRead = true], all else as it
    was; a target outside the four, or none, is answered 400 with the
    validation error of the field and nothing is looked up or stored. *)
Theorem contact_status_update `{Mongoose} :
  (forall ident oid c update w target,
     castObjectId ident = Some oid -> Contacts (db w) !! oid = Some c ->
     update !! "status" = Some target -> target ∈ Contact.status_enum ->
     let c' := Contact.setStatus (Some target) c in
     put_contact_status ident update w
     = (status_json 200 (Success "Contact status updated" (Some (DataContact (oid, c')))),
        {| db := setContacts (<[oid := c']> (Contacts (db w))) (db w);
           log := log w ++ [OpFindByIdAndUpdate "Contact" ident] |}) /\
     Contact.status c' = target /\ Contact.isRead c' = true) /\
  (forall ident update w,
     (forall target, update !! "status" = Some target -> target ∉ Contact.status_enum) ->
     put_contact_status ident update w
     = (status_json 400
          (Failure "Validation failed"
             (Some [fieldError "body" update "status" "Invalid status"])), w)).
Proof.
  split.
  - intros ident oid c update w target Hcast Hfound Hstatus Htarget c'.
    split; [|done]. unfold put_contact_status, tryCatch.
    rewrite put_contact_status_validation. unfold requiredCheck.
    rewrite Hstatus. change (toString (Some target)) with target.
    apply isIn_elem_of in Htarget. rewrite Htarget.
    cbv beta iota. rewrite bind_run.
    by rewrite (Contact_findByIdAndUpdate_found ident oid c _ w Hcast Hfound).
  - intros ident update w Hout. unfold put_contact_status, tryCatch.
    rewrite put_contact_status_validation. unfold requiredCheck.
    assert (Hbad : isIn Contact.status_enum (toString (update !! "status")) = false).
    { apply not_true_is_false. rewrite isIn_elem_of.
      destruct (update !! "status") as [t|]; [by apply Hout|].
      simpl. unfold Contact.status_enum. intros Hin.
      repeat (apply elem_of_cons in Hin as [?|Hin]; [done|]).
      by apply elem_of_nil in Hin. }
    by rewrite Hbad.
Qed.

(** C10.  Creating a vehicle only ever stores a document whose dealer is
    the caller: whatever the body holds, its own [dealer] field included,
    the data handed to the model has the caller's identity as [dealer], and
    the route either leaves the vehicle collection as it was or adds one
    document whose dealer is the identifier the caller's identity casts to.
    When the body passes validation and the schema accepts the data, the
    route answers 201 with that document. *)
Theorem created_vehicle_belongs_to_caller `{Mongoose}
    (currentYear : Z) (user : AuthUser.t) (form : gmap string string) (w : World) :
  let sanitized := (runChains "body" (post_vehicles_chains currentYear) form).2 in
  let vehicleData := <["dealer" := AuthUser.id user]> sanitized in
  let after := (post_vehicles currentYear user form w).2 in
  vehicleData !! "dealer" = Some (AuthUser.id user) /\
  (Vehicles (db after) = Vehicles (db w) \/
   exists v, Vehicles (db after) = <[newObjectId (db w) := v]> (Vehicles (db w)) /\
             castObjectId (AuthUser.id user) = Some (Vehicle.dealer v)) /\
  ((runChains "body" (post_vehicles_chains currentYear) form).1 = [] ->
   forall v, castVehicle vehicleData = Some v ->
     post_vehicles currentYear user form w
     = (status_json 201
          (Success "Vehicle created successfully"
             (Some (DataVehicle (Some (populate (db after) (newObjectId (db w), v)))))),
        {| db := setVehicles (<[newObjectId (db w) := v]> (Vehicles (db w))) (db w);
           log := log w ++ [OpCreate "Vehicle"] |}) /\
     castObjectId (AuthUser.id user) = Some (Vehicle.dealer v)).
Proof.
  intros sanitized vehicleData after.
  assert (Hdealer : vehicleData !! "dealer" = Some (AuthUser.id user))
    by apply lookup_insert_eq.
  split; [done|].
  subst after. unfold post_vehicles, tryCatch.
  subst vehicleData sanitized.
  destruct (runChains "body" (post_vehicles_chains currentYear) form)
    as [errors form'] eqn:Hrun.
  clear Hrun. cbn [fst snd] in *. cbv beta iota.
  destruct errors as [|e errors].
  - rewrite bind_run. unfold Vehicle_create. rewrite bind_run.
    cbn [record db log fst snd].
    destruct (castVehicle (<["dealer" := AuthUser.id user]> form')) as [v|] eqn:Hv;
      cbn -[populate].
    + pose proof (castVehicle_dealer _ v _ Hv Hdealer) as Hcast.
      split; [right; by exists v|]. intros _ v' Hv'. inversion Hv'; subst. done.
    + split; [by left|]. intros _ v' Hv'. done.
  - split; [by left|]. done.
Qed.

(** * The routes on the reference platform *)

Section OnReference.

#[local] Existing Instance Reference.engine.
#[local] Existing Instance Reference.mongoose.
#[local] Existing Instance Reference.email.

(** The attempt to override the two conjuncts changes nothing: the one
    vehicle listed is the available Toyota. *)
Lemma listing_always_gated_witness :
  Forall (fun x => eligible (doc x)) (listed (get_vehicles Sample.override Reference.world).1) /\
  _id <$> listed (get_vehicles Sample.override Reference.world).1 = [Reference.corolla].
Proof.
  split.
  - exact (proj2 (proj2 (listing_always_gated Sample.override Reference.world))).
  - (vm_compute; reflexivity).
Defined.

(** Page 2 with limit 1 of the two available vehicles. *)
Lemma listing_pagination_witness :
  requested Sample.pageTwo "page" 2 1 /\
  requested Sample.pageTwo "limit" 1 10 /\
  exists vehicles pagination,
    get_vehicles Sample.pageTwo Reference.world
    = (status_json 200 (Listing vehicles pagination),
       afterCalls Reference.world
         [OpFind (filterOf Sample.pageTwo); OpCountDocuments (filterOf Sample.pageTwo)]) /\
    _id <$> vehicles = [Reference.corolla] /\
    currentPage pagination = integer 2 /\
    totalVehicles pagination = integer 2 /\
    totalPages pagination = integer 2 /\
    hasNextPage pagination = false /\
    hasPrevPage pagination = true.
Proof.
  assert (Hpage : requested Sample.pageTwo "page" 2 1) by (split; vm_compute; reflexivity).
  assert (Hlimit : requested Sample.pageTwo "limit" 1 10) by (split; vm_compute; reflexivity).
  assert (Hprices : pricesValidate Sample.pageTwo).
  { unfold pricesValidate. constructor; [|constructor; [|constructor]];
      intros s Hs; vm_compute in Hs; discriminate. }
  assert (Hmake : compiles (Sample.pageTwo !! "make") = true) by (vm_compute; reflexivity).
  assert (Hmodel : compiles (Sample.pageTwo !! "model") = true) by (vm_compute; reflexivity).
  assert (Hyear : yearReads Sample.pageTwo = true) by (vm_compute; reflexivity).
  split; [done|]. split; [done|].
  assert (Hfilter : filterRefused (filterOf Sample.pageTwo) = false) by reflexivity.
  assert (Hsort : sortRefused (buildSort Sample.pageTwo) = false) by reflexivity.
  destruct (listing_pagination Sample.pageTwo Reference.world 2 1 Hpage Hlimit
              ltac:(lia) ltac:(lia) Hprices Hmake Hmodel Hyear Hfilter Hsort)
    as (_ & vehicles & pagination & Hrun & Hvs & _ & Hcurrent & Htotal & Hpages & _
        & Hnext & Hprev); [(vm_compute; discriminate)..|].
  exists vehicles, pagination.
  split; [done|].
  split; [rewrite Hvs; vm_compute; reflexivity|].
  split; [done|].
  split; [rewrite Htotal; vm_compute; reflexivity|].
  split; [rewrite Hpages; vm_compute; reflexivity|].
  split; [rewrite Hnext; vm_compute; reflexivity|by rewrite Hprev].
Defined.

(** C2, the claim as stated, fails.  A request with the default page and
    limit and a year that does not read as a number passes validation and
    is answered 500, with no pagination block; and a page beyond 2^53 is
    not the page answered. *)
Lemma listing_without_pagination :
  listingErrors Sample.notAYear = [] /\
  pageOf Sample.notAYear = integer 1 /\ limitOf Sample.notAYear = integer 10 /\
  get_vehicles Sample.notAYear Reference.world
  = (status_json 500 (Failure "Server error" None),
     afterCalls Reference.world [OpFind (filterOf Sample.notAYear)]) /\
  Sample.hugePage !! "page" = Some "9007199254740993" /\
  exists vehicles pagination,
    (get_vehicles Sample.hugePage Reference.world).1
    = status_json 200 (Listing vehicles pagination) /\
    currentPage pagination = integer 9007199254740992.
Proof.
  split; [vm_compute; reflexivity|].
  split; [vm_compute; reflexivity|].
  split; [vm_compute; reflexivity|].
  split; [vm_compute; reflexivity|].
  split; [vm_compute; reflexivity|].
  assert (Herr : listingErrors Sample.hugePage = []) by (vm_compute; reflexivity).
  assert (Hf : buildFilter Sample.hugePage Reference.world
               = (Returned baseFilter, Reference.world)).
  { apply buildFilter_plain. repeat constructor. }
  assert (Hwindow : exists skip,
             window (skipOf Sample.hugePage) (limitOf Sample.hugePage) = Some (skip, 10))
    by (eexists; vm_compute; reflexivity).
  destruct Hwindow as [skip Hwindow].
  rewrite (get_vehicles_query _ _ _ Herr Hf). unfold accepted.
  change (castFilterFails baseFilter) with false.
  change (filterRefused baseFilter) with false.
  change (sortRefused (buildSort Sample.hugePage)) with false. cbn [orb].
  rewrite Hwindow. cbv beta iota zeta.
  eexists _, _. split; [reflexivity|]. cbn [currentPage]. vm_compute. reflexivity.
Qed.


(** The owner of neither vehicle, with the role user, may not touch the
    Corolla; an identifier no vehicle has is not found. *)
Lemma mutation_forbidden_or_missing_witness :
  castObjectId Reference.corolla = Some Reference.corolla /\
  statusCode (put_vehicle Sample.carol Reference.corolla {["price" := "1"]} Reference.world).1
  = 403 /\
  db (delete_vehicle Sample.carol Reference.corolla Reference.world).2 = Reference.sampleDb /\
  statusCode (delete_vehicle Sample.carol Sample.unknownVehicle Reference.world).1 = 404.
Proof.
  assert (Hcorolla : castObjectId Reference.corolla = Some Reference.corolla)
    by (vm_compute; reflexivity).
  assert (Hunknown : castObjectId Sample.unknownVehicle = Some Sample.unknownVehicle)
    by (vm_compute; reflexivity).
  split; [done|].
  destruct (mutation_forbidden_or_missing Sample.carol Reference.corolla Reference.corolla
              {["price" := "1"]} Reference.world Hcorolla) as [Hforbidden _].
  destruct (Hforbidden (Reference.car "Toyota" "Corolla" 2019 15000 "available" 10))
    as [Hput Hdelete]; [(vm_compute; reflexivity)|done|done|].
  destruct (mutation_forbidden_or_missing Sample.carol Sample.unknownVehicle
              Sample.unknownVehicle ∅ Reference.world Hunknown) as [_ Hmissing].
  destruct Hmissing as [_ Hgone]; [vm_compute; reflexivity|].
  rewrite Hput, Hdelete, Hgone. repeat split.
Defined.

(** The closed inquiry goes back to new, and is marked read. *)
Lemma contact_status_update_witness :
  exists c,
    Contacts (db (put_contact_status Reference.inquiry {["status" := "new"]}
                    Reference.world).2) !! Reference.inquiry = Some c /\
    Contact.status c = "new" /\ Contact.isRead c = true.
Proof.
  assert (Hcast : castObjectId Reference.inquiry = Some Reference.inquiry)
    by (vm_compute; reflexivity).
  assert (Hfound : Contacts (db Reference.world) !! Reference.inquiry
                   = Some {| Contact.name := "Carol"; Contact.email := "carol@example.com";
                             Contact.phone := None; Contact.subject := "Price";
                             Contact.message := "Is the price negotiable?";
                             Contact.vehicleId := Reference.corolla;
                             Contact.dealerId := Reference.alice;
                             Contact.isRead := false; Contact.status := "closed" |})
    by (vm_compute; reflexivity).
  assert (Hstatus : ({["status" := "new"]} : gmap string string) !! "status" = Some "new")
    by (vm_compute; reflexivity).
  assert (Htarget : "new" ∈ Contact.status_enum) by (apply elem_of_cons; by left).
  destruct (proj1 contact_status_update _ _ _ _ _ _ Hcast Hfound Hstatus Htarget)
    as (Hrun & Hnew & Hread).
  eexists. rewrite Hrun. split; [apply lookup_insert_eq|split; reflexivity].
Defined.


(** The text abc is no identifier. *)
Lemma malformed_identifier_is_server_error_witness :
  castObjectId "abc" = None /\
  statusCode (get_vehicle "abc" Reference.world).1 = 500 /\
  (errorHandler (castError "Cast to ObjectId failed")).1.1 = 400.
Proof.
  assert (Hcast : castObjectId "abc" = None) by (vm_compute; reflexivity).
  split; [done|].
  destruct (malformed_identifier_is_server_error Sample.carol "abc" ∅ Reference.world Hcast)
    as (Hget & _ & _ & _ & Hterminal).
  rewrite Hget, Hterminal. split; reflexivity.
Defined.

(** A valid form about a vehicle that does not exist. *)
Lemma contact_for_unknown_vehicle_witness :
  (runChains "body" post_contact_chains Sample.contactForm).1 = [] /\
  ~ resolves (Sample.contactForm !! "vehicleId") Reference.sampleDb /\
  statusCode (post_contact Sample.contactForm Reference.world).1 = 500 /\
  Contacts (db (post_contact Sample.contactForm Reference.world).2)
  = Contacts Reference.sampleDb.
Proof.
  assert (Hval : (runChains "body" post_contact_chains Sample.contactForm).1 = [])
    by (vm_compute; reflexivity).
  assert (Hno : ~ resolves (Sample.contactForm !! "vehicleId") Reference.sampleDb).
  { intros (s & oid & v & Hs & Hcast & Hv).
    vm_compute in Hs. inversion Hs; subst s.
    vm_compute in Hcast. inversion Hcast; subst oid.
    vm_compute in Hv. discriminate. }
  split; [done|]. split; [done|].
  destruct (contact_for_unknown_vehicle Sample.contactForm Reference.world Hval Hno)
    as (Hrun & _ & Hcontacts).
  rewrite Hrun. split; [done|]. rewrite Hrun in Hcontacts. done.
Defined.

(** Two fetches of the Corolla, whose counter starts at 7. *)
Lemma single_fetch_counts_view_witness :
  let first := get_vehicle Reference.corolla Reference.world in
  Vehicle.views <$> Vehicles (db first.2) !! Reference.corolla = Some (integer 8) /\
  Vehicle.views <$> Vehicles (db (get_vehicle Reference.corolla first.2).2)
                      !! Reference.corolla = Some (integer 9).
Proof.
  destruct (proj1 (proj2 single_fetch_counts_view) Reference.corolla Reference.corolla
              (Reference.car "Toyota" "Corolla" 2019 15000 "available" 10)
              Reference.world 7)
    as (_ & _ & _ & Hone & _ & Htwo);
    [(vm_compute; reflexivity)..|(vm_compute; discriminate)|(vm_compute; discriminate)|].
  split; [exact Hone|exact Htwo].
Defined.

(** C9, the claim as stated, fails.  A stored vehicle of the year 1899 does
    not pass the validation of [save()]: two fetches in sequence are
    answered 500 and leave its counter as it was.  And a counter at 2^53
    is left unchanged by a successful fetch. *)
Lemma fetch_that_counts_nothing :
  let first := get_vehicle Sample.veteran Sample.museum in
  let second := get_vehicle Sample.veteran first.2 in
  statusCode first.1 = 500 /\ statusCode second.1 = 500 /\
  Vehicle.views <$> Vehicles (db Sample.museum) !! Sample.veteran = Some (integer 7) /\
  Vehicle.views <$> Vehicles (db second.2) !! Sample.veteran = Some (integer 7) /\
  let third := get_vehicle Sample.popular Sample.museum in
  statusCode third.1 = 200 /\
  Vehicle.views <$> Vehicles (db Sample.museum) !! Sample.popular
  = Some (integer (2 ^ 53)) /\
  Vehicle.views <$> Vehicles (db third.2) !! Sample.popular = Some (integer (2 ^ 53)).
Proof. repeat split; vm_compute; reflexivity. Qed.

(** Bob creates a vehicle with a body that names Alice as dealer. *)
Lemma created_vehicle_belongs_to_caller_witness :
  Sample.vehicleForm !! "dealer" = Some Reference.alice /\
  exists v,
    Vehicles (db (post_vehicles 2025 Sample.bobDealer Sample.vehicleForm Reference.world).2)
    = <[newObjectId Reference.sampleDb := v]> (Vehicles Reference.sampleDb) /\
    Vehicle.dealer v = Reference.bob.
Proof.
  split; [vm_compute; reflexivity|].
  destruct (created_vehicle_belongs_to_caller 2025 Sample.bobDealer Sample.vehicleForm
              Reference.world) as (_ & [Hsame|(v & Hadded & Hdealer)] & _).
  - exfalso.
    assert (Hsize : size (Vehicles (db (post_vehicles 2025 Sample.bobDealer
                                          Sample.vehicleForm Reference.world).2)) = 4%nat)
      by (vm_compute; reflexivity).
    rewrite Hsame in Hsize. vm_compute in Hsize. discriminate.
  - exists v. split; [done|]. vm_compute in Hdealer. by inversion Hdealer.
Defined.


End OnReference.
